(** * I2C master driver (i2c_master.c): shallow embedding and verification

    The driver is an interrupt-driven state machine over one global record,
    [i2c_fsm], and the memory-mapped registers of the TWI0 peripheral.  The
    embedding keeps that shape:

    - the global record is the state of a small state/output/error monad;
    - every access to a TWI0 register (they are volatile, so each access is
      observable) is appended to an output log;
    - the values the peripheral presents in MSTATUS and MDATA while one
      interrupt is served are an input of the handler;
    - an access outside the caller's buffer (undefined in C) is the failure
      of the monad. *)

From Stdlib Require Import ZArith Lia Bool.
From stdpp Require Import base list.

Local Open Scope Z_scope.

(** ** Constants of the headers

    [i2c_master.h] and the device header [avr/io.h] are not part of the
    sources at hand; the bit masks and group codes they define are taken as
    parameters of the whole development. *)

Class TWI_defs := {
  I2C_READ_bm : Z;
  TWI_RXACK_bm : Z;
  TWI_ARBLOST_bm : Z;
  TWI_BUSERR_bm : Z;
  TWI_MCMD_STOP_gc : Z;
  TWI_FLUSH_bm : Z;
  TWI_BUSSTATE_IDLE_gc : Z;
  TWI_SDASETUP_4CYC_gc : Z;
  TWI_SDAHOLD_OFF_gc : Z;
  TWI_DBGRUN_bm : Z;
  TWI_RIEN_bm : Z;
  TWI_WIEN_bm : Z;
  TWI_TIMEOUT_DISABLED_gc : Z;
  TWI_ENABLE_bm : Z;
  TWI_ACKACT_bm : Z
}.

(** ** Data model *)

(** [i2c_states_t], in the order of the enumeration. *)
Inductive i2c_states_t : Type :=
  | I2C_IDLE
  | I2C_START
  | I2C_STOP
  | I2C_RESET
  | I2C_TX_BYTE
  | I2C_RX_BYTE
  | I2C_NACK
  | I2C_ARB_ERR
  | I2C_BUS_ERR.

(** The integer value of each enumerator ([I2C_IDLE = 0], then counting up);
    it is the index used on [state_callbacks]. *)
Definition state_index (s : i2c_states_t) : nat :=
  match s with
  | I2C_IDLE => 0
  | I2C_START => 1
  | I2C_STOP => 2
  | I2C_RESET => 3
  | I2C_TX_BYTE => 4
  | I2C_RX_BYTE => 5
  | I2C_NACK => 6
  | I2C_ARB_ERR => 7
  | I2C_BUS_ERR => 8
  end%nat.

Definition all_states : list i2c_states_t :=
  [I2C_IDLE; I2C_START; I2C_STOP; I2C_RESET; I2C_TX_BYTE; I2C_RX_BYTE;
   I2C_NACK; I2C_ARB_ERR; I2C_BUS_ERR].

(** Comparison of two states, as C compares the enumerators' values. *)
Definition state_eqb (a b : i2c_states_t) : bool :=
  Nat.eqb (state_index a) (state_index b).

(** The struct [i2c_data].  The [uint8_t] fields are integers in 0..255.
    [byte_array] is the object the pointer refers to: the bytes the caller
    owns from that address on; the null pointer of the zero initialiser has
    none. *)
Record i2c_data : Type := mk_i2c_data {
  slave_addr : Z;
  byte_array : list Z;
  size_byte_array : Z;
  byte_count : Z;
  state : i2c_states_t
}.

(** [i2c_data i2c_fsm = {0};] *)
Definition i2c_fsm0 : i2c_data :=
  {| slave_addr := 0; byte_array := []; size_byte_array := 0;
     byte_count := 0; state := I2C_IDLE |}.

Definition set_slave_addr (v : Z) (s : i2c_data) : i2c_data :=
  {| slave_addr := v; byte_array := byte_array s;
     size_byte_array := size_byte_array s; byte_count := byte_count s;
     state := state s |}.

Definition set_byte_array (v : list Z) (s : i2c_data) : i2c_data :=
  {| slave_addr := slave_addr s; byte_array := v;
     size_byte_array := size_byte_array s; byte_count := byte_count s;
     state := state s |}.

Definition set_size_byte_array (v : Z) (s : i2c_data) : i2c_data :=
  {| slave_addr := slave_addr s; byte_array := byte_array s;
     size_byte_array := v; byte_count := byte_count s;
     state := state s |}.

Definition set_byte_count (v : Z) (s : i2c_data) : i2c_data :=
  {| slave_addr := slave_addr s; byte_array := byte_array s;
     size_byte_array := size_byte_array s; byte_count := v;
     state := state s |}.

Definition set_state (v : i2c_states_t) (s : i2c_data) : i2c_data :=
  {| slave_addr := slave_addr s; byte_array := byte_array s;
     size_byte_array := size_byte_array s; byte_count := byte_count s;
     state := v |}.

(** Conversion to [uint8_t] on assignment. *)
Definition uint8 (z : Z) : Z := z mod 256.

(** A C scalar used as a condition. *)
Definition c_true (z : Z) : bool := negb (z =? 0).

(** ** The TWI0 peripheral *)

Inductive twi_reg : Type :=
  | CTRLA | DBGCTRL | MBAUD | MCTRLA | MCTRLB | MSTATUS | MADDR | MDATA.

(** One access to a register.  [r |= m] and [r &= m] are read-modify-write
    accesses whose written value depends on what the peripheral holds at that
    moment; they are recorded with their mask. *)
Inductive twi_op : Type :=
  | RegRead (r : twi_reg)
  | RegWrite (r : twi_reg) (v : Z)
  | RegOr (r : twi_reg) (m : Z)
  | RegAnd (r : twi_reg) (m : Z).

(** What the peripheral shows while one interrupt is served. *)
Record twi_in : Type := mk_twi_in {
  MSTATUS_val : Z;
  MDATA_val : Z
}.

(** ** The monad: global record, register log, undefined behaviour *)

Definition M (A : Type) : Type :=
  i2c_data -> option (A * i2c_data * list twi_op).

Definition ret {A} (a : A) : M A := fun s => Some (a, s, []).

Definition bind {A B} (m : M A) (k : A -> M B) : M B := fun s =>
  match m s with
  | None => None
  | Some (a, s1, o1) =>
      match k a s1 with
      | None => None
      | Some (b, s2, o2) => Some (b, s2, o1 ++ o2)
      end
  end.

Declare Scope fsm_scope.
Delimit Scope fsm_scope with fsm.
Notation "'do' x <- m ;; k" := (bind m (fun x => k))
  (at level 10, x name, m at level 99, k at level 200) : fsm_scope.
Notation "m ;; k" := (bind m (fun _ => k))
  (at level 100, k at level 200, right associativity) : fsm_scope.
Local Open Scope fsm_scope.

Definition get : M i2c_data := fun s => Some (s, s, []).
Definition modify (f : i2c_data -> i2c_data) : M unit :=
  fun s => Some (tt, f s, []).
Definition emit (o : twi_op) : M unit := fun s => Some (tt, s, [o]).
Definition undefined {A} : M A := fun _ => None.
Definition when (b : bool) (m : M unit) : M unit := if b then m else ret tt.

(** [*(p + i)] as an rvalue and as an lvalue; outside the object it is
    undefined. *)
Definition load (buf : list Z) (i : Z) : M Z :=
  if i <? 0 then undefined
  else match buf !! Z.to_nat i with
       | Some b => ret b
       | None => undefined
       end.

Definition store (buf : list Z) (i : Z) (v : Z) : M (list Z) :=
  if i <? 0 then undefined
  else match buf !! Z.to_nat i with
       | Some _ => ret (<[Z.to_nat i := v]> buf)
       | None => undefined
       end.

Definition fsm_function : Type := twi_in -> M i2c_states_t.

Section Driver.
Context `{TWI_defs}.

(** ** FSM functions (i2c_master.c, lines 44-123) *)

Definition I2C_M_IDLE : fsm_function := fun _ =>
  ret I2C_IDLE.

Definition I2C_M_START : fsm_function := fun _ =>
  modify (set_byte_count 0) ;;
  do s <- get ;;
  emit (RegWrite MADDR (slave_addr s)) ;;
  do s <- get ;;
  ret (if c_true (Z.land (slave_addr s) I2C_READ_bm)
       then I2C_RX_BYTE else I2C_TX_BYTE).

Definition I2C_M_STOP : fsm_function := fun _ =>
  emit (RegOr MCTRLB TWI_MCMD_STOP_gc) ;;
  ret I2C_IDLE.

Definition I2C_M_RESET : fsm_function := fun _ =>
  emit (RegOr MCTRLB TWI_FLUSH_bm) ;;
  emit (RegOr MSTATUS TWI_BUSSTATE_IDLE_gc) ;;
  ret I2C_IDLE.

Definition I2C_M_TX : fsm_function := fun _ =>
  do s <- get ;;
  do b <- load (byte_array s) (byte_count s) ;;
  emit (RegWrite MDATA b) ;;
  modify (fun s => set_byte_count (uint8 (byte_count s + 1)) s) ;;
  do s <- get ;;
  ret (if byte_count s >=? size_byte_array s
       then I2C_STOP else I2C_TX_BYTE).

Definition I2C_M_RX : fsm_function := fun hw =>
  emit (RegRead MDATA) ;;
  do s <- get ;;
  do buf <- store (byte_array s) (byte_count s) (MDATA_val hw) ;;
  modify (set_byte_array buf) ;;
  modify (fun s => set_byte_count (uint8 (byte_count s + 1)) s) ;;
  do s <- get ;;
  ret (if byte_count s >=? size_byte_array s
       then I2C_STOP else I2C_RX_BYTE).

Definition I2C_M_RX_NACK : fsm_function := fun hw =>
  I2C_M_STOP hw.

Definition I2C_M_ARB_LOST : fsm_function := fun hw =>
  I2C_M_STOP hw.

Definition I2C_M_BUS_ERR : fsm_function := fun hw =>
  I2C_M_STOP hw.

(** The table of lines 125-135. *)
Definition state_callbacks : list fsm_function :=
  [ I2C_M_IDLE;
    I2C_M_START;
    I2C_M_STOP;
    I2C_M_RESET;
    I2C_M_TX;
    I2C_M_RX;
    I2C_M_RX_NACK;
    I2C_M_ARB_LOST;
    I2C_M_BUS_ERR ].

(** [state_callbacks[st]]; an index past the table is undefined. *)
Definition callback (st : i2c_states_t) : M fsm_function :=
  match state_callbacks !! state_index st with
  | Some f => ret f
  | None => undefined
  end.

(** ** The interrupt handler (lines 137-161)

    MSTATUS is read three times; the flags are those of one event, so the
    three reads see the same value. *)

(** The three tests on MSTATUS at the head of [i2c_state_isr]
    (lines 145-158). *)
Definition isr_triage (hw : twi_in) : M unit :=
  emit (RegRead MSTATUS) ;;
  when (c_true (Z.land (MSTATUS_val hw) TWI_RXACK_bm))
       (modify (set_state I2C_NACK)) ;;
  emit (RegRead MSTATUS) ;;
  when (c_true (Z.land (MSTATUS_val hw) TWI_ARBLOST_bm))
       (modify (set_state I2C_ARB_ERR)) ;;
  emit (RegRead MSTATUS) ;;
  when (c_true (Z.land (MSTATUS_val hw) TWI_BUSERR_bm))
       (modify (set_state I2C_BUS_ERR)).

(** [i2c_fsm.state = state_callbacks[i2c_fsm.state]();] (line 160) *)
Definition isr_dispatch (hw : twi_in) : M unit :=
  do s <- get ;;
  do f <- callback (state s) ;;
  do next <- f hw ;;
  modify (set_state next).

Definition i2c_state_isr (hw : twi_in) : M unit :=
  isr_triage hw ;;
  isr_dispatch hw.

(** ** Public entry points (lines 181-214)

    Arguments are values of their C types: [size], [addr] and [read_write]
    are [uint8_t], and [buff] is the object the pointer refers to. *)

Definition i2c_set_buffer (buff : list Z) (size : Z) : M unit :=
  modify (set_byte_array buff) ;;
  modify (set_size_byte_array size) ;;
  modify (set_byte_count 0).

Definition i2c_master_init : M unit :=
  emit (RegWrite CTRLA (Z.lor TWI_SDASETUP_4CYC_gc TWI_SDAHOLD_OFF_gc)) ;;
  emit (RegWrite DBGCTRL TWI_DBGRUN_bm) ;;
  emit (RegWrite MBAUD 11) ;;
  emit (RegWrite MCTRLA
          (Z.lor (Z.lor (Z.lor TWI_RIEN_bm TWI_WIEN_bm)
                        TWI_TIMEOUT_DISABLED_gc) TWI_ENABLE_bm)) ;;
  emit (RegAnd MCTRLB (uint8 (Z.lnot TWI_ACKACT_bm))) ;;
  emit (RegOr MCTRLB TWI_FLUSH_bm) ;;
  emit (RegOr MSTATUS TWI_BUSSTATE_IDLE_gc) ;;
  modify (set_state I2C_IDLE).

Definition i2c_start (addr read_write : Z) (hw : twi_in) : M unit :=
  do s <- get ;;
  if state_eqb (state s) I2C_IDLE then
    modify (set_slave_addr (uint8 (Z.lor (Z.shiftl addr 1) read_write))) ;;
    modify (set_state I2C_START) ;;
    i2c_state_isr hw
  else ret tt.

(** ** Observations on one interrupt *)

(** The state whose function the handler calls: [i2c_fsm.state] as the three
    tests leave it. *)
Definition effective_state (hw : twi_in) (s : i2c_data) : i2c_states_t :=
  match isr_triage hw s with
  | Some (_, s', _) => state s'
  | None => state s
  end.

(** The status flags of one event. *)
Definition peerNack (hw : twi_in) : bool :=
  c_true (Z.land (MSTATUS_val hw) TWI_RXACK_bm).
Definition arbitrationLost (hw : twi_in) : bool :=
  c_true (Z.land (MSTATUS_val hw) TWI_ARBLOST_bm).
Definition busError (hw : twi_in) : bool :=
  c_true (Z.land (MSTATUS_val hw) TWI_BUSERR_bm).
Definition no_error (hw : twi_in) : bool :=
  negb (peerNack hw) && negb (arbitrationLost hw) && negb (busError hw).

(** ** Sequences of calls *)

(** What can happen to the driver: a call of an entry point from the
    foreground, or the TWI0 interrupt.  [Call_start] and [Irq] carry what the
    peripheral shows while the handler runs. *)
Inductive call : Type :=
  | Call_init
  | Call_set_buffer (buff : list Z) (size : Z)
  | Call_start (addr read_write : Z) (hw : twi_in)
  | Irq (hw : twi_in).

Definition exec (c : call) : M unit :=
  match c with
  | Call_init => i2c_master_init
  | Call_set_buffer buff size => i2c_set_buffer buff size
  | Call_start addr rw hw => i2c_start addr rw hw
  | Irq hw => i2c_state_isr hw
  end.

Fixpoint run (cs : list call) : M unit :=
  match cs with
  | [] => ret tt
  | c :: cs => exec c ;; run cs
  end.

(** The effective states one call dispatches: one for an interrupt, one for
    [i2c_start] on an idle machine, none otherwise. *)
Definition dispatched_by (c : call) (s : i2c_data) : list i2c_states_t :=
  match c with
  | Irq hw => [effective_state hw s]
  | Call_start addr rw hw =>
      if state_eqb (state s) I2C_IDLE
      then [effective_state hw (set_state I2C_START s)]
      else []
  | _ => []
  end.

Fixpoint dispatched (cs : list call) (s : i2c_data) : list i2c_states_t :=
  match cs with
  | [] => []
  | c :: cs =>
      dispatched_by c s ++
      match exec c s with
      | Some (_, s', _) => dispatched cs s'
      | None => []
      end
  end.

(** The bytes written to the data register, in order. *)
Definition data_writes (log : list twi_op) : list Z :=
  omap (fun o => match o with RegWrite MDATA v => Some v | _ => None end) log.

End Driver.

(** Modelled from the spec: [I2C_READ_bm], of the absent [i2c_master.h], is
    the direction bit the shift of the address makes room for (bit 0).  The
    spec gives no value for the masks of the peripheral; they are those of
    the device header of the megaAVR 0-series (ATmega4809).  The theorems
    hold for every set of values; this one serves to run the driver on
    concrete inputs. *)
#[global] Instance avr_defs : TWI_defs := {|
  I2C_READ_bm := 0x01;
  TWI_RXACK_bm := 0x10;
  TWI_ARBLOST_bm := 0x08;
  TWI_BUSERR_bm := 0x04;
  TWI_MCMD_STOP_gc := 0x03;
  TWI_FLUSH_bm := 0x08;
  TWI_BUSSTATE_IDLE_gc := 0x01;
  TWI_SDASETUP_4CYC_gc := 0x00;
  TWI_SDAHOLD_OFF_gc := 0x00;
  TWI_DBGRUN_bm := 0x01;
  TWI_RIEN_bm := 0x80;
  TWI_WIEN_bm := 0x40;
  TWI_TIMEOUT_DISABLED_gc := 0x00;
  TWI_ENABLE_bm := 0x01;
  TWI_ACKACT_bm := 0x04
|}.

(** An event without any flag. *)
Definition quiet : twi_in := {| MSTATUS_val := 0; MDATA_val := 0 |}.

(** The function the source lists for each state in [state_callbacks]. *)
Definition action_of `{TWI_defs} (st : i2c_states_t) : fsm_function :=
  match st with
  | I2C_IDLE => I2C_M_IDLE
  | I2C_START => I2C_M_START
  | I2C_STOP => I2C_M_STOP
  | I2C_RESET => I2C_M_RESET
  | I2C_TX_BYTE => I2C_M_TX
  | I2C_RX_BYTE => I2C_M_RX
  | I2C_NACK => I2C_M_RX_NACK
  | I2C_ARB_ERR => I2C_M_ARB_LOST
  | I2C_BUS_ERR => I2C_M_BUS_ERR
  end.

(** The three reads of MSTATUS every interrupt starts with. *)
Definition triage_reads : list twi_op :=
  [RegRead MSTATUS; RegRead MSTATUS; RegRead MSTATUS].

(** The context and the register log a run ends with. *)
Definition final_fsm {A} (r : option (A * i2c_data * list twi_op))
  : option i2c_data :=
  match r with Some (_, s, _) => Some s | None => None end.

Definition final_log {A} (r : option (A * i2c_data * list twi_op))
  : list twi_op :=
  match r with Some (_, _, o) => o | None => [] end.

(** ** Predicates on contexts and calls *)

(** The two states whose function moves one byte. *)
Definition byte_phase (st : i2c_states_t) : bool :=
  match st with
  | I2C_TX_BYTE | I2C_RX_BYTE => true
  | _ => false
  end.

(** A context whose declared size is at least one and lies within the
    caller's buffer, whose count has not passed the size, and has not reached
    it while a byte is still to be moved. *)
Definition bounded (s : i2c_data) : Prop :=
  1 <= size_byte_array s <= 255 /\
  size_byte_array s <= Z.of_nat (length (byte_array s)) /\
  0 <= byte_count s <= size_byte_array s /\
  (byte_phase (state s) = true -> byte_count s < size_byte_array s).

(** A call whose arguments fit their types; [i2c_set_buffer] is given at
    least one byte and no more than the buffer holds. *)
Definition sized_call (c : call) : Prop :=
  match c with
  | Call_set_buffer buff size =>
      1 <= size <= 255 /\ size <= Z.of_nat (length buff)
  | _ => True
  end.

(** The states the handler leaves in [i2c_fsm.state]. *)
Definition resting (st : i2c_states_t) : bool :=
  match st with
  | I2C_IDLE | I2C_TX_BYTE | I2C_RX_BYTE | I2C_STOP => true
  | _ => false
  end.

(** ** Concrete events and contexts *)

(** An event reporting a NACK from the peer, and one reporting a NACK
    together with a bus error. *)
Definition nack_event : twi_in := {| MSTATUS_val := 0x10; MDATA_val := 0 |}.
Definition nack_bus_event : twi_in :=
  {| MSTATUS_val := 0x14; MDATA_val := 0 |}.

(** A write of three bytes to address 0x50 after its first data byte. *)
Definition tx_mid : i2c_data :=
  {| slave_addr := 0xA0; byte_array := [10; 20; 30]; size_byte_array := 3;
     byte_count := 1; state := I2C_TX_BYTE |}.

(** A write declared with size 0 on a buffer of one byte, about to move its
    first byte; and the same for a read. *)
Definition tx_empty : i2c_data :=
  {| slave_addr := 0xA0; byte_array := [7]; size_byte_array := 0;
     byte_count := 0; state := I2C_TX_BYTE |}.
Definition rx_empty : i2c_data :=
  {| slave_addr := 0xA1; byte_array := [7]; size_byte_array := 0;
     byte_count := 0; state := I2C_RX_BYTE |}.

(** The overwrites of the triage, as a list in the order of the tests. *)
Definition triage_order `{TWI_defs} (hw : twi_in)
  : list (bool * i2c_states_t) :=
  [ (peerNack hw, I2C_NACK);
    (arbitrationLost hw, I2C_ARB_ERR);
    (busError hw, I2C_BUS_ERR) ].

Definition overwrite (st : i2c_states_t) (t : bool * i2c_states_t)
  : i2c_states_t :=
  if fst t then snd t else st.

(** The context an aborted write of three bytes leaves behind: idle, with
    the old address, buffer, size and count. *)
Definition after_abort : i2c_data :=
  {| slave_addr := 0xA0; byte_array := [10; 20; 30]; size_byte_array := 3;
     byte_count := 1; state := I2C_IDLE |}.

(** An event on which the peripheral shows the byte 0x5A in MDATA. *)
Definition data_event : twi_in := {| MSTATUS_val := 0; MDATA_val := 0x5A |}.

(** ** Register logs of whole transfers *)

(** The accesses of the byte events of a write that sends [bs], of a read of
    [k] bytes, and of the event that ends a transaction with the stop
    command. *)
Definition tx_log (bs : list Z) : list twi_op :=
  flat_map (fun b => triage_reads ++ [RegWrite MDATA b]) bs.

Definition rx_log (k : nat) : list twi_op :=
  concat (replicate k (triage_reads ++ [RegRead MDATA])).

Definition stop_log `{TWI_defs} : list twi_op :=
  triage_reads ++ [RegOr MCTRLB TWI_MCMD_STOP_gc].

(** The accesses of interrupts served while the machine is idle. *)
Definition idle_log `{TWI_defs} (evs : list twi_in) : list twi_op :=
  flat_map (fun hw => triage_reads ++
              (if no_error hw then [] else [RegOr MCTRLB TWI_MCMD_STOP_gc]))
           evs.

(** The byte state the function of [I2C_START] selects for an address
    byte. *)
Definition direction `{TWI_defs} (a : Z) : i2c_states_t :=
  if c_true (Z.land a I2C_READ_bm) then I2C_RX_BYTE else I2C_TX_BYTE.

(** A call that runs the handler while the peripheral shows an error flag. *)
Definition flagged `{TWI_defs} (c : call) : Prop :=
  match c with
  | Call_start _ _ hw | Irq hw => no_error hw = false
  | _ => False
  end.

(** A context in which no read is under way or about to begin. *)
Definition not_reading `{TWI_defs} (s : i2c_data) : Prop :=
  state s <> I2C_RX_BYTE /\
  (state s = I2C_START -> direction (slave_addr s) = I2C_TX_BYTE).

(** The context a completed write of three bytes leaves behind: idle, with
    the count at the size. *)
Definition after_write : i2c_data :=
  {| slave_addr := 0xA0; byte_array := [10; 20; 30]; size_byte_array := 3;
     byte_count := 3; state := I2C_IDLE |}.

(** ** The error flags between two runs of the handler

    What the comments of the source say of the peripheral: ARBLOST and BUSERR
    are not cleared by a read or write of MDATA (line 84); a write to MADDR
    clears them (lines 111, 119, 171 and 172), and so may a write to MSTATUS
    (line 56).  Nothing is said to clear them when a command is written to
    MCTRLB. *)
Definition clears_error_flags (o : twi_op) : bool :=
  match o with
  | RegWrite MADDR _ => true
  | RegWrite MSTATUS _ | RegOr MSTATUS _ | RegAnd MSTATUS _ => true
  | _ => false
  end.

(** What MSTATUS shows of the error flags after the accesses [log], when it
    showed [status] before them. *)
Definition flags_left `{TWI_defs} (status : Z) (log : list twi_op) : Z :=
  if existsb clears_error_flags log
  then Z.ldiff status (Z.lor TWI_ARBLOST_bm TWI_BUSERR_bm)
  else status.

(** An event reporting a bus error. *)
Definition bus_error_event : twi_in :=
  {| MSTATUS_val := 0x04; MDATA_val := 0 |}.

(** * Basic facts *)

Lemma state_eqb_eq (a b : i2c_states_t) : state_eqb a b = true <-> a = b.
Proof.
  split; [| intros ->; unfold state_eqb; apply Nat.eqb_refl].
  destruct a, b; cbn; congruence.
Qed.

Lemma state_eqb_neq (a b : i2c_states_t) : state_eqb a b = false <-> a <> b.
Proof.
  rewrite <- state_eqb_eq. destruct (state_eqb a b); split; congruence.
Qed.

Lemma callback_total `{TWI_defs} (st : i2c_states_t) :
  state_callbacks !! state_index st = Some (action_of st).
Proof. destruct st; reflexivity. Qed.

Lemma effective_state_cases `{TWI_defs} (hw : twi_in) (s : i2c_data) :
  effective_state hw s =
  if busError hw then I2C_BUS_ERR
  else if arbitrationLost hw then I2C_ARB_ERR
  else if peerNack hw then I2C_NACK
  else state s.
Proof.
  unfold effective_state, isr_triage, busError, arbitrationLost, peerNack.
  destruct (c_true (Z.land (MSTATUS_val hw) TWI_RXACK_bm)),
           (c_true (Z.land (MSTATUS_val hw) TWI_ARBLOST_bm)),
           (c_true (Z.land (MSTATUS_val hw) TWI_BUSERR_bm)); reflexivity.
Qed.

(** Case analysis on the three flags of an event. *)
Ltac flag_cases hw :=
  destruct (busError hw), (arbitrationLost hw), (peerNack hw).

Lemma effective_state_quiet `{TWI_defs} (hw : twi_in) (s : i2c_data) :
  no_error hw = true -> effective_state hw s = state s.
Proof.
  rewrite effective_state_cases. unfold no_error.
  flag_cases hw;
    cbn; congruence.
Qed.

Lemma isr_triage_run `{TWI_defs} (hw : twi_in) (s : i2c_data) :
  isr_triage hw s = Some (tt, set_state (effective_state hw s) s, triage_reads).
Proof.
  unfold effective_state, isr_triage.
  destruct s.
  destruct (c_true (Z.land (MSTATUS_val hw) TWI_RXACK_bm)),
           (c_true (Z.land (MSTATUS_val hw) TWI_ARBLOST_bm)),
           (c_true (Z.land (MSTATUS_val hw) TWI_BUSERR_bm)); reflexivity.
Qed.

(** The handler calls the function of the effective state on the context
    holding that state, and stores what it returns. *)
Lemma isr_run `{TWI_defs} (hw : twi_in) (s : i2c_data) :
  i2c_state_isr hw s =
  match action_of (effective_state hw s) hw
          (set_state (effective_state hw s) s) with
  | Some (next, s', o) => Some (tt, set_state next s', triage_reads ++ o)
  | None => None
  end.
Proof.
  unfold i2c_state_isr, bind. rewrite isr_triage_run.
  unfold isr_dispatch, bind, get, callback.
  cbn [state set_state]. rewrite callback_total. unfold ret at 1.
  destruct (action_of _ hw _) as [[[next s'] o]|]; [|reflexivity].
  unfold modify. cbn. rewrite app_nil_r. reflexivity.
Qed.

(** ** What each FSM function computes *)

Lemma idle_run `{TWI_defs} (hw : twi_in) (s : i2c_data) :
  I2C_M_IDLE hw s = Some (I2C_IDLE, s, []).
Proof. reflexivity. Qed.

Lemma start_run `{TWI_defs} (hw : twi_in) (s : i2c_data) :
  I2C_M_START hw s =
  Some (if c_true (Z.land (slave_addr s) I2C_READ_bm)
        then I2C_RX_BYTE else I2C_TX_BYTE,
        set_byte_count 0 s, [RegWrite MADDR (slave_addr s)]).
Proof. reflexivity. Qed.

Lemma stop_run `{TWI_defs} (hw : twi_in) (s : i2c_data) :
  I2C_M_STOP hw s = Some (I2C_IDLE, s, [RegOr MCTRLB TWI_MCMD_STOP_gc]).
Proof. reflexivity. Qed.

Lemma reset_run `{TWI_defs} (hw : twi_in) (s : i2c_data) :
  I2C_M_RESET hw s =
  Some (I2C_IDLE, s,
        [RegOr MCTRLB TWI_FLUSH_bm; RegOr MSTATUS TWI_BUSSTATE_IDLE_gc]).
Proof. reflexivity. Qed.

Lemma tx_run `{TWI_defs} (hw : twi_in) (s : i2c_data) (b : Z) :
  0 <= byte_count s ->
  byte_array s !! Z.to_nat (byte_count s) = Some b ->
  I2C_M_TX hw s =
  Some (if uint8 (byte_count s + 1) >=? size_byte_array s
        then I2C_STOP else I2C_TX_BYTE,
        set_byte_count (uint8 (byte_count s + 1)) s,
        [RegWrite MDATA b]).
Proof.
  intros Hc Hb. unfold I2C_M_TX, bind, get, load.
  destruct (Z.ltb_spec (byte_count s) 0) as [|_]; [lia|].
  rewrite Hb. reflexivity.
Qed.

Lemma rx_run `{TWI_defs} (hw : twi_in) (s : i2c_data) (b : Z) :
  0 <= byte_count s ->
  byte_array s !! Z.to_nat (byte_count s) = Some b ->
  I2C_M_RX hw s =
  Some (if uint8 (byte_count s + 1) >=? size_byte_array s
        then I2C_STOP else I2C_RX_BYTE,
        set_byte_count (uint8 (byte_count s + 1))
          (set_byte_array
             (<[Z.to_nat (byte_count s) := MDATA_val hw]> (byte_array s)) s),
        [RegRead MDATA]).
Proof.
  intros Hc Hb. unfold I2C_M_RX, bind, get, emit, store.
  destruct (Z.ltb_spec (byte_count s) 0) as [|_]; [lia|].
  rewrite Hb. reflexivity.
Qed.

(** Only the two byte functions touch the buffer; the others never fail. *)
Lemma action_defined `{TWI_defs} (st : i2c_states_t) (hw : twi_in)
    (s : i2c_data) :
  st <> I2C_TX_BYTE -> st <> I2C_RX_BYTE ->
  exists next o, action_of st hw s = Some (next, set_byte_count
    (if state_eqb st I2C_START then 0 else byte_count s) s, o)
    /\ next <> I2C_RESET /\ next <> I2C_START
    /\ (st <> I2C_START -> next = I2C_IDLE)
    /\ (st = I2C_START -> next = I2C_TX_BYTE \/ next = I2C_RX_BYTE).
Proof.
  intros Ht Hr. destruct s.
  destruct st; try congruence; cbn;
    try (eexists _, _; split; [reflexivity|];
         repeat split; (congruence || tauto)).
  eexists _, _. split; [reflexivity|].
  cbn. destruct (c_true _); repeat split; (congruence || tauto).
Qed.

(** ** One interrupt on a bounded context *)

Lemma effective_byte_phase `{TWI_defs} (hw : twi_in) (s : i2c_data) :
  byte_phase (effective_state hw s) = true ->
  effective_state hw s = state s /\ no_error hw = true.
Proof.
  rewrite effective_state_cases. unfold no_error.
  flag_cases hw;
    cbn; intros; split; congruence.
Qed.

Lemma uint8_small (z : Z) : 0 <= z < 256 -> uint8 z = z.
Proof. intros. unfold uint8. apply Z.mod_small. lia. Qed.

Lemma lookup_in_buffer (buf : list Z) (i : Z) :
  0 <= i < Z.of_nat (length buf) -> is_Some (buf !! Z.to_nat i).
Proof. intros. apply lookup_lt_is_Some. lia. Qed.

(** A byte function called on a bounded context in its own state moves the
    byte at [byte_count], which is in the buffer, and keeps the bound. *)
Lemma byte_step `{TWI_defs} (st : i2c_states_t) (hw : twi_in) (s : i2c_data) :
  bounded s -> byte_phase st = true -> state s = st ->
  exists next buf o,
    action_of st hw s =
      Some (next, set_byte_count (byte_count s + 1) (set_byte_array buf s), o)
    /\ length buf = length (byte_array s)
    /\ next = (if byte_count s + 1 >=? size_byte_array s then I2C_STOP else st).
Proof.
  intros (Hs & Hl & Hc & Hp) Hb Hst. rewrite Hst in Hp. specialize (Hp Hb).
  destruct (lookup_in_buffer (byte_array s) (byte_count s)) as [b Hlk]; [lia|].
  destruct st; try discriminate; cbn [action_of].
  - rewrite (tx_run hw s b) by (lia || assumption).
    rewrite uint8_small by lia.
    exists (if byte_count s + 1 >=? size_byte_array s
            then I2C_STOP else I2C_TX_BYTE), (byte_array s), [RegWrite MDATA b].
    destruct s; cbn. repeat split.
  - rewrite (rx_run hw s b) by (lia || assumption).
    rewrite uint8_small by lia.
    eexists _, _, _. split; [reflexivity|].
    split; [apply length_insert | reflexivity].
Qed.

Lemma isr_bounded `{TWI_defs} (hw : twi_in) (s : i2c_data) :
  bounded s ->
  exists s' o, i2c_state_isr hw s = Some (tt, s', o) /\ bounded s'.
Proof.
  intros Hb. rewrite isr_run.
  destruct (byte_phase (effective_state hw s)) eqn:He.
  - destruct (effective_byte_phase hw s He) as [Heq _].
    assert (Hs : set_state (effective_state hw s) s = s)
      by (rewrite Heq; destruct s; reflexivity).
    rewrite Hs.
    destruct (byte_step (effective_state hw s) hw s Hb He (eq_sym Heq))
      as (next & buf & o & -> & Hlen & Hnext).
    eexists _, _. split; [reflexivity|].
    destruct Hb as (Hsz & Hl & Hc & Hp).
    rewrite <- Heq in Hp. specialize (Hp He).
    unfold bounded; cbn. rewrite Hlen. repeat split; try lia.
    rewrite Hnext.
    destruct (Z.geb_spec (byte_count s + 1) (size_byte_array s)); cbn.
    + discriminate.
    + intros _. lia.
  - destruct (action_defined (effective_state hw s) hw
                (set_state (effective_state hw s) s))
      as (next & o & -> & _ & _ & Hst & Hidle).
    { intros E; rewrite E in He; discriminate. }
    { intros E; rewrite E in He; discriminate. }
    eexists _, _. split; [reflexivity|].
    destruct Hb as (Hsz & Hl & Hc & Hp).
    unfold bounded; cbn.
    destruct (state_eqb (effective_state hw s) I2C_START) eqn:Es; cbn.
    + repeat split; try lia.
    + repeat split; try lia.
      apply state_eqb_neq in Es. rewrite (Hst Es). discriminate.
Qed.

(** ** Sequences of calls on a bounded context *)

Lemma set_buffer_run `{TWI_defs} (buff : list Z) (size : Z) (s : i2c_data) :
  i2c_set_buffer buff size s =
  Some (tt, {| slave_addr := slave_addr s; byte_array := buff;
               size_byte_array := size; byte_count := 0;
               state := state s |}, []).
Proof. reflexivity. Qed.

Lemma start_call_run `{TWI_defs} (addr rw : Z) (hw : twi_in) (s : i2c_data) :
  i2c_start addr rw hw s =
  if state_eqb (state s) I2C_IDLE
  then i2c_state_isr hw
         (set_state I2C_START
            (set_slave_addr (uint8 (Z.lor (Z.shiftl addr 1) rw)) s))
  else Some (tt, s, []).
Proof.
  unfold i2c_start, bind, get.
  destruct (state_eqb (state s) I2C_IDLE); [|reflexivity].
  unfold modify.
  destruct (i2c_state_isr hw _) as [[[[] s'] o]|]; reflexivity.
Qed.

Lemma init_run `{TWI_defs} (s : i2c_data) :
  i2c_master_init s =
  Some (tt, set_state I2C_IDLE s,
        [RegWrite CTRLA (Z.lor TWI_SDASETUP_4CYC_gc TWI_SDAHOLD_OFF_gc);
         RegWrite DBGCTRL TWI_DBGRUN_bm;
         RegWrite MBAUD 11;
         RegWrite MCTRLA
           (Z.lor (Z.lor (Z.lor TWI_RIEN_bm TWI_WIEN_bm)
                         TWI_TIMEOUT_DISABLED_gc) TWI_ENABLE_bm);
         RegAnd MCTRLB (uint8 (Z.lnot TWI_ACKACT_bm));
         RegOr MCTRLB TWI_FLUSH_bm;
         RegOr MSTATUS TWI_BUSSTATE_IDLE_gc]).
Proof. reflexivity. Qed.

Lemma run_cons `{TWI_defs} (c : call) (cs : list call) (s : i2c_data) :
  run (c :: cs) s =
  match exec c s with
  | Some (_, s1, o1) =>
      match run cs s1 with
      | Some (_, s2, o2) => Some (tt, s2, o1 ++ o2)
      | None => None
      end
  | None => None
  end.
Proof.
  cbn [run]. unfold bind. destruct (exec c s) as [[[[] s1] o1]|]; [|reflexivity].
  destruct (run cs s1) as [[[[] s2] o2]|]; reflexivity.
Qed.

Lemma exec_bounded `{TWI_defs} (c : call) (s : i2c_data) :
  sized_call c -> bounded s ->
  exists s' o, exec c s = Some (tt, s', o) /\ bounded s'.
Proof.
  intros Hc Hb. destruct c as [|buff size|addr rw hw|hw]; cbn [exec].
  - rewrite init_run. eexists _, _. split; [reflexivity|].
    destruct Hb as (? & ? & ? & ?). unfold bounded; cbn.
    repeat split; try lia; try discriminate.
  - rewrite set_buffer_run. eexists _, _. split; [reflexivity|].
    cbn in Hc. unfold bounded; cbn. repeat split; lia.
  - rewrite start_call_run.
    destruct (state_eqb (state s) I2C_IDLE).
    + apply isr_bounded.
      destruct Hb as (? & ? & ? & ?). unfold bounded; cbn.
      repeat split; try lia; try discriminate.
    + eexists _, _. split; [reflexivity | assumption].
  - apply isr_bounded, Hb.
Qed.

Lemma run_bounded `{TWI_defs} (cs : list call) (s : i2c_data) :
  Forall sized_call cs -> bounded s ->
  exists s' o, run cs s = Some (tt, s', o) /\ bounded s'.
Proof.
  intros Hcs. revert s.
  induction Hcs as [|c cs Hc _ IH]; intros s Hb.
  - exists s, []. split; [reflexivity | assumption].
  - rewrite run_cons.
    destruct (exec_bounded c s Hc Hb) as (s1 & o1 & -> & Hb1).
    destruct (IH s1 Hb1) as (s2 & o2 & -> & Hb2).
    eexists _, _. split; [reflexivity | assumption].
Qed.

(** After [i2c_set_buffer] with a size of at least one within the buffer the
    context is bounded, whatever it was. *)
Lemma set_buffer_bounded `{TWI_defs} (buff : list Z) (size : Z)
    (s : i2c_data) :
  1 <= size <= 255 -> size <= Z.of_nat (length buff) ->
  exists s', i2c_set_buffer buff size s = Some (tt, s', []) /\ bounded s'
    /\ state s' = state s /\ size_byte_array s' = size
    /\ byte_count s' = 0 /\ byte_array s' = buff.
Proof.
  intros Hs Hl. rewrite set_buffer_run. eexists. split; [reflexivity|].
  unfold bounded; cbn. repeat split; lia.
Qed.

(** ** One transaction, event by event *)

Lemma error_effective `{TWI_defs} (hw : twi_in) (s : i2c_data) :
  no_error hw = false ->
  byte_phase (effective_state hw s) = false /\
  effective_state hw s <> I2C_START /\
  effective_state hw s <> I2C_IDLE /\
  effective_state hw s <> I2C_STOP /\
  effective_state hw s <> I2C_RESET.
Proof.
  rewrite effective_state_cases. unfold no_error.
  flag_cases hw; cbn;
    intros; repeat split; congruence.
Qed.

(** An interrupt whose effective state is neither a byte state nor
    [I2C_START] leaves the machine idle and the rest of the context as it
    was. *)
Lemma isr_settle `{TWI_defs} (hw : twi_in) (s : i2c_data) :
  byte_phase (effective_state hw s) = false ->
  effective_state hw s <> I2C_START ->
  exists o, i2c_state_isr hw s = Some (tt, set_state I2C_IDLE s, o).
Proof.
  intros Hb Hs. rewrite isr_run.
  destruct (action_defined (effective_state hw s) hw
              (set_state (effective_state hw s) s))
    as (next & o & -> & _ & _ & Hidle & _).
  { intros E; rewrite E in Hb; discriminate. }
  { intros E; rewrite E in Hb; discriminate. }
  rewrite (Hidle Hs).
  apply state_eqb_neq in Hs. rewrite Hs.
  eexists. destruct s; reflexivity.
Qed.

(** Once the machine rests outside a transaction, further interrupts do not
    move the count. *)
Lemma run_settled `{TWI_defs} (evs : list twi_in) (s : i2c_data) :
  byte_phase (state s) = false -> state s <> I2C_START ->
  exists s' o, run (map Irq evs) s = Some (tt, s', o)
    /\ byte_count s' = byte_count s
    /\ size_byte_array s' = size_byte_array s
    /\ slave_addr s' = slave_addr s
    /\ byte_array s' = byte_array s
    /\ state s' = match evs with [] => state s | _ => I2C_IDLE end.
Proof.
  revert s. induction evs as [|hw evs IH]; intros s Hb Hs.
  - exists s, []. repeat split; congruence.
  - cbn [map]. rewrite run_cons. cbn [exec].
    destruct (isr_settle hw s) as (o1 & ->).
    { rewrite effective_state_cases.
      flag_cases hw;
        (reflexivity || assumption). }
    { rewrite effective_state_cases.
      flag_cases hw;
        (discriminate || assumption). }
    destruct (IH (set_state I2C_IDLE s)) as (s2 & o2 & -> & Hc & Hz & Ha & Hbuf & Hst);
      [reflexivity | discriminate |].
    eexists _, _. split; [reflexivity|].
    cbn in Hc, Hz, Ha, Hbuf. repeat split; try assumption.
    rewrite Hst. destruct evs; reflexivity.
Qed.

(** An interrupt without error flag in a byte state moves one byte. *)
Lemma isr_quiet_byte `{TWI_defs} (hw : twi_in) (s : i2c_data) :
  bounded s -> byte_phase (state s) = true -> no_error hw = true ->
  exists s' o, i2c_state_isr hw s = Some (tt, s', o)
    /\ bounded s'
    /\ size_byte_array s' = size_byte_array s
    /\ byte_count s' = byte_count s + 1
    /\ state s' = (if byte_count s + 1 >=? size_byte_array s
                   then I2C_STOP else state s).
Proof.
  intros Hb Hp Hq.
  destruct (isr_bounded hw s Hb) as (s' & o & Hrun & Hb').
  exists s', o. split; [assumption|]. split; [assumption|].
  rewrite isr_run, (effective_state_quiet hw s Hq) in Hrun.
  assert (Hs : set_state (state s) s = s) by (destruct s; reflexivity).
  rewrite Hs in Hrun.
  destruct (byte_step (state s) hw s Hb Hp eq_refl)
    as (next & buf & o' & Hact & _ & Hnext).
  rewrite Hact in Hrun. injection Hrun as <- _. cbn.
  repeat split. assumption.
Qed.

Lemma byte_progress `{TWI_defs} (evs : list twi_in) (s : i2c_data) :
  bounded s -> byte_phase (state s) = true ->
  exists s' o, run (map Irq evs) s = Some (tt, s', o)
    /\ size_byte_array s' = size_byte_array s
    /\ 0 <= byte_count s' <= size_byte_array s
    /\ (byte_count s' = size_byte_array s <->
        (Z.to_nat (size_byte_array s - byte_count s) <= length evs)%nat /\
        Forall (fun hw => no_error hw = true)
               (take (Z.to_nat (size_byte_array s - byte_count s)) evs)).
Proof.
  revert s. induction evs as [|hw evs IH]; intros s Hb Hp.
  - exists s, []. destruct Hb as (Hs & Hl & Hc & Hlt). specialize (Hlt Hp).
    split; [reflexivity|]. repeat split; try lia.
    intros [Hle _]. cbn in Hle. lia.
  - cbn [map]. rewrite run_cons. cbn [exec].
    assert (Hlt : 0 <= byte_count s < size_byte_array s)
      by (destruct Hb as (? & ? & ? & Hlt); specialize (Hlt Hp); lia).
    assert (Hk : Z.to_nat (size_byte_array s - byte_count s)
                 = S (Z.to_nat (size_byte_array s - (byte_count s + 1))))
      by lia.
    rewrite Hk. cbn [take].
    destruct (no_error hw) eqn:Hq.
    + destruct (isr_quiet_byte hw s Hb Hp Hq)
        as (s1 & o1 & -> & Hb1 & Hz1 & Hc1 & Hst1).
      destruct (Z.geb_spec (byte_count s + 1) (size_byte_array s)) as [Hge|Hnge].
      * destruct (run_settled evs s1) as (s2 & o2 & -> & Hc2 & Hz2 & _);
          [rewrite Hst1; reflexivity | rewrite Hst1; discriminate |].
        eexists _, _. split; [reflexivity|].
        rewrite Hz2, Hc2, Hz1, Hc1. repeat split; try lia.
        { cbn. lia. }
        replace (Z.to_nat (size_byte_array s - (byte_count s + 1))) with 0%nat
          by lia.
        cbn. repeat constructor. assumption.
      * destruct (IH s1 Hb1) as (s2 & o2 & -> & Hz2 & Hc2 & Hiff);
          [rewrite Hst1; assumption|].
        eexists _, _. split; [reflexivity|].
        rewrite Hz1, Hc1 in *. split; [assumption|]. split; [assumption|].
        rewrite Hiff. cbn [length]. rewrite Forall_cons.
        split; intros; [split; [lia | tauto] | split; [lia | tauto]].
    + destruct (error_effective hw s Hq) as (He1 & He2 & _).
      destruct (isr_settle hw s He1 He2) as (o1 & ->).
      destruct (run_settled evs (set_state I2C_IDLE s))
        as (s2 & o2 & -> & Hc2 & Hz2 & _); [reflexivity | discriminate |].
      cbn in Hc2, Hz2.
      eexists _, _. split; [reflexivity|].
      rewrite Hz2, Hc2. repeat split; try lia.
      intros [_ Hall]. apply Forall_cons in Hall as [Hhw _]. congruence.
Qed.

(** * The claims *)

(** C7. Dispatch is total: the table has nine entries, one per state and in
    the order of the enumeration, the entry of every state is the function
    written for it, and the lookup the handler makes is never undefined. *)
Theorem dispatch_total `{TWI_defs} :
  length state_callbacks = 9%nat /\
  map state_index all_states = seq 0 9 /\
  state_callbacks = map action_of all_states /\
  (forall st : i2c_states_t, st ∈ all_states) /\
  (forall st : i2c_states_t,
     state_callbacks !! state_index st = Some (action_of st)) /\
  (forall (st : i2c_states_t) (s : i2c_data),
     callback st s = Some (action_of st, s, [])).
Proof.
  repeat split.
  - intros st. unfold all_states. destruct st; repeat constructor.
  - apply callback_total.
  - intros st s. unfold callback. rewrite callback_total. reflexivity.
Qed.

(** C3. Error triage: the effective state is the stored state overwritten,
    in this order, by [I2C_NACK] if the peer-NACK flag is set, by
    [I2C_ARB_ERR] if the arbitration-lost flag is set and by [I2C_BUS_ERR] if
    the bus-error flag is set; so the last set flag wins, and with peer-NACK
    and bus-error both set the effective state is [I2C_BUS_ERR] whatever the
    stored state; the handler then calls the function of the effective
    state. *)
Theorem error_triage `{TWI_defs} (hw : twi_in) (s : i2c_data) :
  effective_state hw s = fold_left overwrite (triage_order hw) (state s) /\
  effective_state hw s =
    (if busError hw then I2C_BUS_ERR
     else if arbitrationLost hw then I2C_ARB_ERR
     else if peerNack hw then I2C_NACK
     else state s) /\
  (peerNack hw = true -> busError hw = true ->
   effective_state hw s = I2C_BUS_ERR) /\
  isr_triage hw s =
    Some (tt, set_state (effective_state hw s) s, triage_reads) /\
  i2c_state_isr hw s =
    match action_of (effective_state hw s) hw
            (set_state (effective_state hw s) s) with
    | Some (next, s', o) => Some (tt, set_state next s', triage_reads ++ o)
    | None => None
    end.
Proof.
  split; [|split; [|split; [|split]]].
  - rewrite effective_state_cases. unfold triage_order, overwrite. cbn.
    flag_cases hw; reflexivity.
  - apply effective_state_cases.
  - intros _ Hb. rewrite effective_state_cases, Hb. reflexivity.
  - apply isr_triage_run.
  - apply isr_run.
Qed.

(** C3, on an event with the peer-NACK and bus-error flags set, in the
    middle of a write. *)
Lemma error_triage_tie_break :
  peerNack nack_bus_event = true /\ busError nack_bus_event = true /\
  effective_state nack_bus_event tx_mid = I2C_BUS_ERR.
Proof.
  split; [reflexivity|]. split; [reflexivity|].
  apply (error_triage nack_bus_event tx_mid); reflexivity.
Defined.

(** C1. [i2c_start] acts if and only if the machine is idle.  On an idle
    machine it stores [addr << 1 | read_write] (as a [uint8_t]) in
    [slave_addr], stores [I2C_START] in [state] and runs the handler exactly
    once on that context; the handler never fails there, so the call
    returns, with the address stored and at least one register access made.
    On any other state it returns the context as it was, without any
    register access.  For a 7-bit address and a direction bit the conversion
    to [uint8_t] changes nothing. *)
Theorem i2c_start_iff_idle `{TWI_defs} (addr rw : Z) (hw : twi_in)
    (s : i2c_data) :
  (state s = I2C_IDLE ->
   i2c_start addr rw hw s =
     i2c_state_isr hw
       (set_state I2C_START
          (set_slave_addr (uint8 (Z.lor (Z.shiftl addr 1) rw)) s)) /\
   exists s' o, i2c_start addr rw hw s = Some (tt, s', o)
     /\ slave_addr s' = uint8 (Z.lor (Z.shiftl addr 1) rw)
     /\ o <> []) /\
  (state s <> I2C_IDLE -> i2c_start addr rw hw s = Some (tt, s, [])) /\
  (i2c_start addr rw hw s <> Some (tt, s, []) -> state s = I2C_IDLE) /\
  (0 <= addr < 128 -> 0 <= rw < 2 ->
   uint8 (Z.lor (Z.shiftl addr 1) rw) = 2 * addr + rw).
Proof.
  split; [|split; [|split]].
  - intros Hi. rewrite start_call_run.
    apply state_eqb_eq in Hi. rewrite Hi. split; [reflexivity|].
    rewrite isr_run.
    set (s0 := set_state I2C_START _).
    destruct (action_defined (effective_state hw s0) hw
                (set_state (effective_state hw s0) s0))
      as (next & o & -> & _).
    { rewrite effective_state_cases.
      flag_cases hw;
        discriminate. }
    { rewrite effective_state_cases.
      flag_cases hw;
        discriminate. }
    eexists _, _. split; [reflexivity|]. split; [reflexivity | discriminate].
  - intros Hn. rewrite start_call_run.
    apply state_eqb_neq in Hn. rewrite Hn. reflexivity.
  - intros Hne. destruct (state_eqb (state s) I2C_IDLE) eqn:E.
    + apply state_eqb_eq, E.
    + exfalso. apply Hne. rewrite start_call_run, E. reflexivity.
  - intros Ha Hr. rewrite Z.shiftl_mul_pow2 by lia.
    change (2 ^ 1) with 2.
    assert (Hl : Z.lor (addr * 2) rw = addr * 2 + rw).
    { assert (rw = 0 \/ rw = 1) as [-> | ->] by lia.
      - rewrite Z.lor_0_r. lia.
      - rewrite <- Z.add_nocarry_lor; [reflexivity|].
        replace (addr * 2) with (Z.shiftl addr 1)
          by (rewrite Z.shiftl_mul_pow2 by lia; reflexivity).
        apply Z.bits_inj'. intros n Hn. rewrite Z.land_spec, Z.bits_0.
        destruct (Z.eq_dec n 0) as [-> | Hn0].
        + rewrite Z.shiftl_spec by lia. cbn. reflexivity.
        + replace 1 with (2 ^ 0) by reflexivity.
          rewrite (Z.pow2_bits_false 0 n) by lia.
          apply andb_false_r. }
    rewrite Hl. rewrite uint8_small by lia. lia.
Qed.

(** C1 on the zero-initialised machine (idle) and in the middle of a write
    (not idle), for a write to address 0x50. *)
Lemma i2c_start_iff_idle_witness :
  final_fsm (i2c_start 0x50 0 quiet i2c_fsm0) =
    Some {| slave_addr := 0xA0; byte_array := []; size_byte_array := 0;
            byte_count := 0; state := I2C_TX_BYTE |} /\
  i2c_start 0x50 0 quiet tx_mid = Some (tt, tx_mid, []).
Proof.
  destruct (i2c_start_iff_idle 0x50 0 quiet i2c_fsm0) as ((Hrun & _) & _).
  { reflexivity. }
  destruct (i2c_start_iff_idle 0x50 0 quiet tx_mid) as (_ & Hnop & _).
  split.
  - rewrite Hrun. reflexivity.
  - apply Hnop. discriminate.
Defined.

(** C5. Error abort: the functions of [I2C_NACK], [I2C_ARB_ERR] and
    [I2C_BUS_ERR] are the function of [I2C_STOP]: it sets the stop command in
    MCTRLB, returns [I2C_IDLE] and leaves the context as it was; an interrupt
    with any error flag set therefore ends idle with the stop command issued
    and [byte_count], [size_byte_array], [byte_array] and [slave_addr]
    unchanged.  In particular, in [I2C_TX_BYTE] with count 1 and size 3, an
    event with the peer-NACK flag set (and no other) dispatches [I2C_NACK],
    issues the stop command and ends idle with the count still 1. *)
Theorem error_abort `{TWI_defs} (hw : twi_in) (s : i2c_data) :
  I2C_M_RX_NACK = I2C_M_STOP /\
  I2C_M_ARB_LOST = I2C_M_STOP /\
  I2C_M_BUS_ERR = I2C_M_STOP /\
  I2C_M_STOP hw s = Some (I2C_IDLE, s, [RegOr MCTRLB TWI_MCMD_STOP_gc]) /\
  (no_error hw = false ->
   i2c_state_isr hw s =
     Some (tt, set_state I2C_IDLE s,
           triage_reads ++ [RegOr MCTRLB TWI_MCMD_STOP_gc])) /\
  (state s = I2C_TX_BYTE -> byte_count s = 1 -> size_byte_array s = 3 ->
   peerNack hw = true -> arbitrationLost hw = false -> busError hw = false ->
   effective_state hw s = I2C_NACK /\
   exists s', i2c_state_isr hw s =
                Some (tt, s', triage_reads ++ [RegOr MCTRLB TWI_MCMD_STOP_gc])
     /\ state s' = I2C_IDLE /\ byte_count s' = 1 /\ size_byte_array s' = 3
     /\ byte_array s' = byte_array s /\ slave_addr s' = slave_addr s).
Proof.
  assert (Herr : no_error hw = false ->
    i2c_state_isr hw s =
      Some (tt, set_state I2C_IDLE s,
            triage_reads ++ [RegOr MCTRLB TWI_MCMD_STOP_gc])).
  { intros Hq. rewrite isr_run, effective_state_cases.
    unfold no_error in Hq. destruct s.
    flag_cases hw;
      try discriminate; reflexivity. }
  repeat split; try assumption.
  - rewrite effective_state_cases.
    flag_cases hw;
      congruence.
  - exists (set_state I2C_IDLE s). split.
    + apply Herr. unfold no_error.
      destruct (peerNack hw); [reflexivity | discriminate].
    + cbn. repeat split; assumption.
Qed.

(** C5 on the write of three bytes after its first byte. *)
Lemma error_abort_witness :
  effective_state nack_event tx_mid = I2C_NACK /\
  exists s', i2c_state_isr nack_event tx_mid =
               Some (tt, s', triage_reads ++ [RegOr MCTRLB 3])
    /\ state s' = I2C_IDLE /\ byte_count s' = 1 /\ size_byte_array s' = 3
    /\ byte_array s' = [10; 20; 30] /\ slave_addr s' = 0xA0.
Proof.
  destruct (error_abort nack_event tx_mid) as (_ & _ & _ & _ & _ & Hsc).
  apply Hsc; reflexivity.
Defined.

(** C4 (as amended). Byte functions: on a context whose count indexes a byte
    of the buffer, the function of [I2C_TX_BYTE] writes that byte to MDATA,
    the function of [I2C_RX_BYTE] reads MDATA into that place of the buffer;
    both increment the count (as a [uint8_t]) and return [I2C_STOP] if the
    incremented count is greater than or equal to the size, else their own
    state.  With size 0 they return [I2C_STOP]; with the count below a size
    of at most 255 the test is the same as equality with the size. *)
Theorem byte_function_post `{TWI_defs} (hw : twi_in) (s : i2c_data) (b : Z) :
  0 <= byte_count s ->
  byte_array s !! Z.to_nat (byte_count s) = Some b ->
  I2C_M_TX hw s =
    Some (if uint8 (byte_count s + 1) >=? size_byte_array s
          then I2C_STOP else I2C_TX_BYTE,
          set_byte_count (uint8 (byte_count s + 1)) s,
          [RegWrite MDATA b]) /\
  I2C_M_RX hw s =
    Some (if uint8 (byte_count s + 1) >=? size_byte_array s
          then I2C_STOP else I2C_RX_BYTE,
          set_byte_count (uint8 (byte_count s + 1))
            (set_byte_array
               (<[Z.to_nat (byte_count s) := MDATA_val hw]> (byte_array s)) s),
          [RegRead MDATA]) /\
  (size_byte_array s = 0 ->
   (uint8 (byte_count s + 1) >=? size_byte_array s) = true) /\
  (byte_count s < size_byte_array s <= 255 ->
   (uint8 (byte_count s + 1) >=? size_byte_array s) =
   (uint8 (byte_count s + 1) =? size_byte_array s)).
Proof.
  intros Hc Hb. split; [|split; [|split]].
  - apply (tx_run hw s b); assumption.
  - apply (rx_run hw s b); assumption.
  - intros ->. unfold uint8.
    pose proof (Z.mod_pos_bound (byte_count s + 1) 256 ltac:(lia)).
    apply Z.geb_le. lia.
  - intros Hlt. rewrite uint8_small by lia.
    destruct (Z.geb_spec (byte_count s + 1) (size_byte_array s)),
             (Z.eqb_spec (byte_count s + 1) (size_byte_array s));
      (reflexivity || lia).
Qed.

(** C4 on the write of three bytes after its first byte: the second byte
    goes out and the function stays in [I2C_TX_BYTE]. *)
Lemma byte_function_post_witness :
  I2C_M_TX quiet tx_mid =
    Some (I2C_TX_BYTE, set_byte_count 2 tx_mid, [RegWrite MDATA 20]).
Proof.
  apply (byte_function_post quiet tx_mid 20); [cbn; lia | reflexivity].
Defined.

(** C4 as stated fails: with size 0 the incremented count, 1, is not equal
    to the size, and yet both byte functions return [I2C_STOP] and not their
    own state. *)
Lemma byte_function_stops_on_size_0 :
  I2C_M_TX quiet tx_empty =
    Some (I2C_STOP, set_byte_count 1 tx_empty, [RegWrite MDATA 7]) /\
  I2C_M_RX quiet rx_empty =
    Some (I2C_STOP, set_byte_count 1 (set_byte_array [0] rx_empty),
          [RegRead MDATA]) /\
  byte_count (set_byte_count 1 tx_empty) <> size_byte_array tx_empty /\
  I2C_STOP <> I2C_TX_BYTE /\ I2C_STOP <> I2C_RX_BYTE.
Proof. repeat split; (reflexivity || discriminate). Qed.

(** The first step of a transaction: [i2c_start] on an idle, bounded context
    whose count is 0. *)
Lemma start_step `{TWI_defs} (addr rw : Z) (hw : twi_in) (s : i2c_data) :
  bounded s -> state s = I2C_IDLE -> byte_count s = 0 ->
  exists s' o, i2c_start addr rw hw s = Some (tt, s', o)
    /\ bounded s'
    /\ size_byte_array s' = size_byte_array s
    /\ byte_count s' = 0
    /\ (if no_error hw then byte_phase (state s') = true
        else state s' = I2C_IDLE).
Proof.
  intros Hb Hi Hc. rewrite start_call_run.
  apply state_eqb_eq in Hi. rewrite Hi.
  set (s0 := set_state I2C_START _).
  assert (Hb0 : bounded s0).
  { destruct Hb as (? & ? & ? & ?). unfold bounded; cbn.
    repeat split; try lia; try discriminate. }
  destruct (isr_bounded hw s0 Hb0) as (s' & o & Hrun & Hb').
  exists s', o. split; [assumption|]. split; [assumption|].
  destruct (no_error hw) eqn:Hq.
  - rewrite isr_run, (effective_state_quiet hw s0 Hq) in Hrun.
    cbn in Hrun. injection Hrun as <- _. cbn.
    repeat split. destruct (c_true _); reflexivity.
  - destruct (error_effective hw s0 Hq) as (He1 & He2 & _).
    destruct (isr_settle hw s0 He1 He2) as (o' & Hrun').
    rewrite Hrun' in Hrun. injection Hrun as <- _. cbn.
    repeat split. assumption.
Qed.

(** [i2c_start] on any idle, bounded context: without error flag the
    function of [I2C_START] runs and resets the count; with one, the start is
    refused before the count is reset and the count stays where it was. *)
Lemma start_step_any `{TWI_defs} (addr rw : Z) (hw : twi_in) (s : i2c_data) :
  bounded s -> state s = I2C_IDLE ->
  exists s' o, i2c_start addr rw hw s = Some (tt, s', o)
    /\ bounded s'
    /\ size_byte_array s' = size_byte_array s
    /\ (if no_error hw
        then byte_phase (state s') = true /\ byte_count s' = 0
        else state s' = I2C_IDLE /\ byte_count s' = byte_count s).
Proof.
  intros Hb Hi. rewrite start_call_run.
  apply state_eqb_eq in Hi. rewrite Hi.
  set (s0 := set_state I2C_START _).
  assert (Hb0 : bounded s0).
  { destruct Hb as (? & ? & ? & ?). unfold bounded; cbn.
    repeat split; try lia; try discriminate. }
  destruct (isr_bounded hw s0 Hb0) as (s' & o & Hrun & Hb').
  exists s', o. split; [assumption|]. split; [assumption|].
  destruct (no_error hw) eqn:Hq.
  - rewrite isr_run, (effective_state_quiet hw s0 Hq) in Hrun.
    cbn in Hrun. injection Hrun as <- _. cbn.
    repeat split. destruct (c_true _); reflexivity.
  - destruct (error_effective hw s0 Hq) as (He1 & He2 & _).
    destruct (isr_settle hw s0 He1 He2) as (o' & Hrun').
    rewrite Hrun' in Hrun. injection Hrun as <- _. cbn.
    repeat split.
Qed.

(** C2 (as amended). Count bound: after [i2c_set_buffer] with a size of at
    least 1 that lies within the buffer, every sequence of calls of
    [i2c_master_init], [i2c_set_buffer] (with such a size), [i2c_start] and
    interrupts runs without leaving the buffer and ends in a bounded context,
    so with [0 <= byte_count <= size_byte_array].  A transaction begun by
    [i2c_start] on any idle bounded context ends with the count equal to the
    size if and only if either neither the start nor any of the first [size]
    events raised an error flag and that many events arrived, or the start
    itself raised an error flag (it is then refused before the count is
    reset) and the count already stood at the size.  Begun right after
    [i2c_set_buffer], only the first case is left. *)
Theorem count_bound `{TWI_defs} (buff : list Z) (size : Z) (s : i2c_data) :
  1 <= size <= 255 -> size <= Z.of_nat (length buff) ->
  (forall cs : list call, Forall sized_call cs ->
   exists s' o, run (Call_set_buffer buff size :: cs) s = Some (tt, s', o)
     /\ bounded s'
     /\ 0 <= byte_count s' <= size_byte_array s') /\
  (forall (addr rw : Z) (hw0 : twi_in) (evs : list twi_in),
   state s = I2C_IDLE ->
   exists s' o,
     run (Call_set_buffer buff size :: Call_start addr rw hw0 :: map Irq evs) s
       = Some (tt, s', o)
     /\ size_byte_array s' = size
     /\ 0 <= byte_count s' <= size
     /\ (byte_count s' = size <->
         no_error hw0 = true /\
         (Z.to_nat size <= length evs)%nat /\
         Forall (fun hw => no_error hw = true) (take (Z.to_nat size) evs))) /\
  (forall (s0 : i2c_data) (addr rw : Z) (hw0 : twi_in) (evs : list twi_in),
   bounded s0 -> state s0 = I2C_IDLE ->
   exists s' o,
     run (Call_start addr rw hw0 :: map Irq evs) s0 = Some (tt, s', o)
     /\ size_byte_array s' = size_byte_array s0
     /\ 0 <= byte_count s' <= size_byte_array s0
     /\ (byte_count s' = size_byte_array s0 <->
         (no_error hw0 = true /\
          (Z.to_nat (size_byte_array s0) <= length evs)%nat /\
          Forall (fun hw => no_error hw = true)
                 (take (Z.to_nat (size_byte_array s0)) evs))
         \/ (no_error hw0 = false /\ byte_count s0 = size_byte_array s0))).
Proof.
  intros Hs Hl.
  assert (Hany : forall (s0 : i2c_data) (addr rw : Z) (hw0 : twi_in)
                        (evs : list twi_in),
    bounded s0 -> state s0 = I2C_IDLE ->
    exists s' o,
      run (Call_start addr rw hw0 :: map Irq evs) s0 = Some (tt, s', o)
      /\ size_byte_array s' = size_byte_array s0
      /\ 0 <= byte_count s' <= size_byte_array s0
      /\ (byte_count s' = size_byte_array s0 <->
          (no_error hw0 = true /\
           (Z.to_nat (size_byte_array s0) <= length evs)%nat /\
           Forall (fun hw => no_error hw = true)
                  (take (Z.to_nat (size_byte_array s0)) evs))
          \/ (no_error hw0 = false /\ byte_count s0 = size_byte_array s0))).
  { intros s0 addr rw hw0 evs Hb0 Hi.
    rewrite run_cons. cbn [exec].
    destruct (start_step_any addr rw hw0 s0 Hb0 Hi)
      as (s1 & o1 & -> & Hb1 & Hz1 & Hq).
    destruct (no_error hw0) eqn:Hq0.
    - destruct Hq as [Hp Hc1].
      destruct (byte_progress evs s1 Hb1 Hp)
        as (s2 & o2 & -> & Hz2 & Hc2 & Hiff).
      eexists _, _. split; [reflexivity|].
      rewrite Hz1 in *. rewrite Hc1, Z.sub_0_r in Hiff.
      split; [assumption|]. split; [assumption|].
      rewrite Hiff. split.
      + intros [? ?]. left. tauto.
      + intros [[_ ?] | [? _]]; [assumption | discriminate].
    - destruct Hq as [Hst1 Hc1].
      destruct (run_settled evs s1) as (s2 & o2 & -> & Hc2 & Hz2 & _);
        [rewrite Hst1; reflexivity | rewrite Hst1; discriminate |].
      eexists _, _. split; [reflexivity|].
      rewrite Hz2, Hc2, Hz1, Hc1.
      destruct Hb0 as (_ & _ & Hc0 & _).
      split; [reflexivity|]. split; [assumption|].
      split.
      + intros E. right. split; [reflexivity | assumption].
      + intros [[? _] | [_ ?]]; [discriminate | assumption]. }
  destruct (set_buffer_bounded buff size s Hs Hl)
    as (s0 & Hset & Hb0 & Hst0 & Hz0 & Hc0 & _).
  split; [|split; [|exact Hany]].
  - intros cs Hcs. rewrite run_cons. cbn [exec]. rewrite Hset.
    destruct (run_bounded cs s0 Hcs Hb0) as (s' & o & -> & Hb').
    eexists _, _. split; [reflexivity|]. split; [assumption|].
    destruct Hb' as (_ & _ & Hc & _). exact Hc.
  - intros addr rw hw0 evs Hi.
    rewrite run_cons. cbn [exec]. rewrite Hset.
    destruct (Hany s0 addr rw hw0 evs Hb0) as (s' & o & -> & Hz & Hc & Hiff);
      [congruence|].
    eexists _, _. split; [reflexivity|].
    rewrite Hz0 in *. split; [assumption|]. split; [assumption|].
    rewrite Hiff. split.
    + intros [? | [_ E]]; [assumption | lia].
    + intros ?. left. assumption.
Qed.

(** C2 on a write of three bytes with three quiet events: the count ends at
    the size. *)
Lemma count_bound_witness :
  exists s' o,
    run (Call_set_buffer [10; 20; 30] 3 :: Call_start 0x50 0 quiet
         :: map Irq [quiet; quiet; quiet]) i2c_fsm0 = Some (tt, s', o)
    /\ size_byte_array s' = 3
    /\ 0 <= byte_count s' <= 3
    /\ (byte_count s' = 3 <->
        no_error quiet = true /\
        (Z.to_nat 3 <= length [quiet; quiet; quiet])%nat /\
        Forall (fun hw => no_error hw = true)
               (take (Z.to_nat 3) [quiet; quiet; quiet])).
Proof.
  refine (proj1 (proj2 (count_bound [10; 20; 30] 3 i2c_fsm0 _ _))
                0x50 0 quiet [quiet; quiet; quiet] eq_refl).
  - lia.
  - cbn. lia.
Defined.

(** The second case of C2: a start refused by a NACK flag after a completed
    write leaves the count at the size. *)
Example refused_start_keeps_count :
  run (Call_start 0x50 0 nack_event :: map Irq []) after_write =
    Some (tt, after_write, triage_reads ++ [RegOr MCTRLB 3]) /\
  byte_count after_write = size_byte_array after_write /\
  no_error nack_event = false.
Proof. repeat split. Qed.

(** C2 as stated fails for a transaction of size 0: the first byte event
    moves a byte all the same and leaves the count, 1, above the size. *)
Lemma count_exceeds_size_0 :
  exists s' o,
    run [Call_set_buffer [7] 0; Call_start 0x50 0 quiet; Irq quiet] i2c_fsm0
      = Some (tt, s', o)
    /\ size_byte_array s' = 0 /\ byte_count s' = 1
    /\ size_byte_array s' < byte_count s'
    /\ data_writes o = [7].
Proof.
  eexists _, _. split; [reflexivity|]. cbn. repeat split; lia.
Qed.

(** C9. In-bounds access: after [i2c_set_buffer] with a size of at least 1
    that lies within the buffer (and so for every later call of it), no
    sequence of calls and interrupts ever leaves the buffer, and whenever a
    byte function is about to be dispatched the count is below the size and
    indexes a byte of the buffer, so the function is defined. *)
Theorem byte_access_in_bounds `{TWI_defs} (buff : list Z) (size : Z)
    (cs : list call) (s : i2c_data) :
  1 <= size <= 255 -> size <= Z.of_nat (length buff) ->
  Forall sized_call cs ->
  exists s' o, run (Call_set_buffer buff size :: cs) s = Some (tt, s', o) /\
    forall hw : twi_in, byte_phase (effective_state hw s') = true ->
      0 <= byte_count s' < size_byte_array s' /\
      size_byte_array s' <= Z.of_nat (length (byte_array s')) /\
      is_Some (byte_array s' !! Z.to_nat (byte_count s')) /\
      is_Some (action_of (effective_state hw s') hw s') /\
      is_Some (i2c_state_isr hw s').
Proof.
  intros Hs Hl Hcs.
  destruct (set_buffer_bounded buff size s Hs Hl) as (s0 & Hset & Hb0 & _).
  rewrite run_cons. cbn [exec]. rewrite Hset.
  destruct (run_bounded cs s0 Hcs Hb0) as (s' & o & -> & Hb').
  eexists _, _. split; [reflexivity|].
  intros hw He.
  destruct (effective_byte_phase hw s' He) as [Heq _].
  pose proof Hb' as (Hsz & Hlen & Hc & Hp).
  rewrite <- Heq in Hp. specialize (Hp He).
  split; [lia|]. split; [assumption|].
  split; [apply lookup_in_buffer; lia|].
  split.
  - destruct (byte_step (effective_state hw s') hw s' Hb' He (eq_sym Heq))
      as (next & buf & o' & -> & _). eexists; reflexivity.
  - destruct (isr_bounded hw s' Hb') as (s2 & o2 & -> & _).
    eexists; reflexivity.
Qed.

(** C9 on a read of two bytes after its first byte. *)
Lemma byte_access_in_bounds_witness :
  exists s' o,
    run [Call_set_buffer [0; 0] 2; Call_start 0x50 1 quiet;
         Irq {| MSTATUS_val := 0; MDATA_val := 0x5A |}] i2c_fsm0
      = Some (tt, s', o) /\
    forall hw : twi_in, byte_phase (effective_state hw s') = true ->
      0 <= byte_count s' < size_byte_array s' /\
      size_byte_array s' <= Z.of_nat (length (byte_array s')) /\
      is_Some (byte_array s' !! Z.to_nat (byte_count s')) /\
      is_Some (action_of (effective_state hw s') hw s') /\
      is_Some (i2c_state_isr hw s').
Proof.
  apply (byte_access_in_bounds [0; 0] 2
           [Call_start 0x50 1 quiet;
            Irq {| MSTATUS_val := 0; MDATA_val := 0x5A |}] i2c_fsm0).
  - lia.
  - cbn. lia.
  - repeat constructor.
Defined.

(** ** States the handler stores *)

Lemma action_next_resting `{TWI_defs} (st : i2c_states_t) (hw : twi_in)
    (s s' : i2c_data) (next : i2c_states_t) (o : list twi_op) :
  action_of st hw s = Some (next, s', o) -> resting next = true.
Proof.
  destruct st; cbn [action_of].
  1-4, 7-9: (cbn; intros [= <- _ _]; try reflexivity).
  - destruct (c_true _); reflexivity.
  - unfold I2C_M_TX, bind, get, load.
    destruct (byte_count s <? 0); [discriminate|].
    destruct (byte_array s !! Z.to_nat (byte_count s)); [|discriminate].
    cbn. intros [= <- _ _]. destruct (_ >=? _); reflexivity.
  - unfold I2C_M_RX, bind, get, emit, store.
    destruct (byte_count s <? 0); [discriminate|].
    destruct (byte_array s !! Z.to_nat (byte_count s)); [|discriminate].
    cbn. intros [= <- _ _]. destruct (_ >=? _); reflexivity.
Qed.

Lemma isr_resting `{TWI_defs} (hw : twi_in) (s s' : i2c_data)
    (o : list twi_op) :
  i2c_state_isr hw s = Some (tt, s', o) -> resting (state s') = true.
Proof.
  rewrite isr_run.
  destruct (action_of _ hw _) as [[[next s1] o1]|] eqn:Ha; [|discriminate].
  intros [= <- _]. cbn. eapply action_next_resting, Ha.
Qed.

Lemma exec_resting `{TWI_defs} (c : call) (s s' : i2c_data)
    (o : list twi_op) :
  resting (state s) = true -> exec c s = Some (tt, s', o) ->
  resting (state s') = true.
Proof.
  intros Hr. destruct c as [|buff size|addr rw hw|hw]; cbn [exec].
  - rewrite init_run. intros [= <- _]. reflexivity.
  - rewrite set_buffer_run. intros [= <- _]. exact Hr.
  - rewrite start_call_run. destruct (state_eqb (state s) I2C_IDLE).
    + apply isr_resting.
    + intros [= <- _]. exact Hr.
  - apply isr_resting.
Qed.

Lemma run_resting `{TWI_defs} (cs : list call) (s s' : i2c_data)
    (o : list twi_op) :
  resting (state s) = true -> run cs s = Some (tt, s', o) ->
  resting (state s') = true.
Proof.
  revert s o. induction cs as [|c cs IH]; intros s o Hr.
  - cbn. intros [= <- _]. exact Hr.
  - rewrite run_cons.
    destruct (exec c s) as [[[[] s1] o1]|] eqn:He; [|discriminate].
    destruct (run cs s1) as [[[[] s2] o2]|] eqn:Hrun; [|discriminate].
    intros [= <- _]. eapply IH; [|exact Hrun].
    eapply exec_resting; eassumption.
Qed.

Lemma effective_reset `{TWI_defs} (hw : twi_in) (s : i2c_data) :
  effective_state hw s = I2C_RESET -> state s = I2C_RESET.
Proof.
  rewrite effective_state_cases.
  flag_cases hw;
    (discriminate || trivial).
Qed.

Lemma dispatched_no_reset `{TWI_defs} (cs : list call) (s : i2c_data) :
  resting (state s) = true ->
  Forall (fun st => st <> I2C_RESET) (dispatched cs s).
Proof.
  revert s. induction cs as [|c cs IH]; intros s Hr; cbn [dispatched].
  - constructor.
  - apply Forall_app. split.
    + destruct c as [|buff size|addr rw hw|hw]; cbn [dispatched_by].
      * constructor.
      * constructor.
      * destruct (state_eqb (state s) I2C_IDLE); repeat constructor.
        intros E. apply effective_reset in E. discriminate.
      * repeat constructor. intros E. apply effective_reset in E.
        rewrite E in Hr. discriminate.
    + destruct (exec c s) as [[[[] s1] o1]|] eqn:He; [|constructor].
      apply IH. eapply exec_resting; eassumption.
Qed.

(** C10. Reset: the function of [I2C_RESET] sets the flush bit in MCTRLB,
    sets the bus-idle state in MSTATUS and returns [I2C_IDLE], leaving the
    context as it was.  No function of any state returns [I2C_RESET], the
    triage never selects it, and the handler never stores it; so from the
    zero-initialised machine, whatever the calls and events, [I2C_RESET] is
    never dispatched nor stored.  [i2c_master_init] does not go through the
    state either: it makes the two register accesses of the reset function
    itself, last, and stores [I2C_IDLE]. *)
Theorem reset_never_dispatched `{TWI_defs} :
  (forall (hw : twi_in) (s : i2c_data),
     I2C_M_RESET hw s =
       Some (I2C_IDLE, s,
             [RegOr MCTRLB TWI_FLUSH_bm;
              RegOr MSTATUS TWI_BUSSTATE_IDLE_gc])) /\
  (forall st hw s next s' o,
     action_of st hw s = Some (next, s', o) -> next <> I2C_RESET) /\
  (forall hw s, effective_state hw s = I2C_RESET -> state s = I2C_RESET) /\
  (forall hw s s' o,
     i2c_state_isr hw s = Some (tt, s', o) -> state s' <> I2C_RESET) /\
  (forall cs : list call,
     Forall (fun st => st <> I2C_RESET) (dispatched cs i2c_fsm0)) /\
  (forall cs s' o,
     run cs i2c_fsm0 = Some (tt, s', o) -> state s' <> I2C_RESET) /\
  (forall (hw : twi_in) (s : i2c_data),
     exists pre,
       i2c_master_init s =
         Some (tt, set_state I2C_IDLE s,
               pre ++ final_log (I2C_M_RESET hw s))).
Proof.
  split; [|split; [|split; [|split; [|split; [|split]]]]].
  - reflexivity.
  - intros st hw s next s' o Ha E. apply action_next_resting in Ha.
    rewrite E in Ha. discriminate.
  - apply effective_reset.
  - intros hw s s' o Hr E. apply isr_resting in Hr.
    rewrite E in Hr. discriminate.
  - intros cs. apply dispatched_no_reset. reflexivity.
  - intros cs s' o Hr E. apply run_resting in Hr; [|reflexivity].
    rewrite E in Hr. discriminate.
  - intros hw s. rewrite init_run.
    exists [RegWrite CTRLA (Z.lor TWI_SDASETUP_4CYC_gc TWI_SDAHOLD_OFF_gc);
            RegWrite DBGCTRL TWI_DBGRUN_bm;
            RegWrite MBAUD 11;
            RegWrite MCTRLA
              (Z.lor (Z.lor (Z.lor TWI_RIEN_bm TWI_WIEN_bm)
                            TWI_TIMEOUT_DISABLED_gc) TWI_ENABLE_bm);
            RegAnd MCTRLB (uint8 (Z.lnot TWI_ACKACT_bm))].
    reflexivity.
Qed.

(** ** A new transaction forgets the previous one *)

Lemma begin_from_idle `{TWI_defs} (buff : list Z) (size addr rw : Z)
    (hw : twi_in) (s : i2c_data) :
  state s = I2C_IDLE ->
  run [Call_set_buffer buff size; Call_start addr rw hw] s =
  match i2c_state_isr hw
          {| slave_addr := uint8 (Z.lor (Z.shiftl addr 1) rw);
             byte_array := buff; size_byte_array := size;
             byte_count := 0; state := I2C_START |} with
  | Some (_, s', o) => Some (tt, s', o)
  | None => None
  end.
Proof.
  intros Hi. rewrite run_cons. cbn [exec]. rewrite set_buffer_run.
  rewrite run_cons. cbn [exec]. rewrite start_call_run.
  cbn [state]. apply state_eqb_eq in Hi. rewrite Hi.
  unfold set_state, set_slave_addr. cbn.
  destruct (i2c_state_isr hw _) as [[[[] s'] o]|]; [|reflexivity].
  cbn. rewrite app_nil_r. reflexivity.
Qed.

Lemma run_app `{TWI_defs} (cs1 cs2 : list call) (s : i2c_data) :
  run (cs1 ++ cs2) s =
  match run cs1 s with
  | Some (_, s1, o1) =>
      match run cs2 s1 with
      | Some (_, s2, o2) => Some (tt, s2, o1 ++ o2)
      | None => None
      end
  | None => None
  end.
Proof.
  revert s. induction cs1 as [|c cs1 IH]; intros s.
  - cbn. destruct (run cs2 s) as [[[[] s2] o2]|]; reflexivity.
  - cbn [app]. rewrite !run_cons.
    destruct (exec c s) as [[[[] s1] o1]|]; [|reflexivity].
    rewrite IH.
    destruct (run cs1 s1) as [[[[] s2] o2]|]; [|reflexivity].
    destruct (run cs2 s2) as [[[[] s3] o3]|]; [|reflexivity].
    rewrite app_assoc. reflexivity.
Qed.

Lemma dispatched_app `{TWI_defs} (cs1 cs2 : list call) (s : i2c_data) :
  dispatched (cs1 ++ cs2) s =
  dispatched cs1 s ++
  match run cs1 s with
  | Some (_, s1, _) => dispatched cs2 s1
  | None => []
  end.
Proof.
  revert s. induction cs1 as [|c cs1 IH]; intros s.
  - reflexivity.
  - cbn [app dispatched]. rewrite run_cons.
    destruct (exec c s) as [[[[] s1] o1]|]; [|rewrite !app_nil_r; reflexivity].
    rewrite IH, app_assoc.
    destruct (run cs1 s1) as [[[[] s2] o2]|]; reflexivity.
Qed.

(** The part of re-entry that holds: nothing stored in the context leaks.
    On any idle context, whatever address, buffer, size and count the
    previous transaction left in it, [i2c_set_buffer] and [i2c_start]
    followed by any calls and events give the same result as on the
    zero-initialised machine, provided the peripheral shows the same values
    in both runs: the same final context, the same register accesses, the
    same effective states.  [i2c_master_init] leaves the zero-initialised
    context as it is. *)
Theorem reentry_like_fresh `{TWI_defs} (buff : list Z) (size addr rw : Z)
    (hw : twi_in) (cs : list call) (s : i2c_data) :
  state s = I2C_IDLE ->
  run (Call_set_buffer buff size :: Call_start addr rw hw :: cs) s =
  run (Call_set_buffer buff size :: Call_start addr rw hw :: cs) i2c_fsm0 /\
  dispatched (Call_set_buffer buff size :: Call_start addr rw hw :: cs) s =
  dispatched (Call_set_buffer buff size :: Call_start addr rw hw :: cs)
    i2c_fsm0 /\
  final_fsm (run [Call_init] i2c_fsm0) = Some i2c_fsm0.
Proof.
  intros Hi.
  change (Call_set_buffer buff size :: Call_start addr rw hw :: cs)
    with ([Call_set_buffer buff size; Call_start addr rw hw] ++ cs).
  rewrite !run_app, !dispatched_app.
  rewrite (begin_from_idle buff size addr rw hw s Hi).
  rewrite (begin_from_idle buff size addr rw hw i2c_fsm0 eq_refl).
  split; [reflexivity|]. split; [|reflexivity].
  f_equal. cbn [dispatched dispatched_by exec].
  rewrite !set_buffer_run, !start_call_run. cbn [state].
  apply state_eqb_eq in Hi. rewrite Hi. cbn [state_eqb state_index Nat.eqb i2c_fsm0 state].
  rewrite !effective_state_cases. cbn [state set_state].
  reflexivity.
Qed.

(** After an aborted write, with no flag showing any more: a read of two
    bytes from another address runs as on the fresh machine. *)
Lemma reentry_like_fresh_witness :
  run (Call_set_buffer [0; 0] 2 :: Call_start 0x21 1 quiet
       :: [Irq data_event; Irq data_event; Irq quiet]) after_abort =
  Some (tt,
        {| slave_addr := 0x43; byte_array := [0x5A; 0x5A];
           size_byte_array := 2; byte_count := 2; state := I2C_IDLE |},
        triage_reads ++ [RegWrite MADDR 0x43] ++
        triage_reads ++ [RegRead MDATA] ++
        triage_reads ++ [RegRead MDATA] ++
        triage_reads ++ [RegOr MCTRLB 3]).
Proof.
  rewrite (proj1 (reentry_like_fresh [0; 0] 2 0x21 1 quiet
                    [Irq data_event; Irq data_event; Irq quiet]
                    after_abort eq_refl)).
  reflexivity.
Defined.

(** ** A write of three bytes *)

Lemma dispatched_cons `{TWI_defs} (c : call) (cs : list call) (s : i2c_data) :
  dispatched (c :: cs) s =
  dispatched_by c s ++
  match exec c s with
  | Some (_, s', _) => dispatched cs s'
  | None => []
  end.
Proof. reflexivity. Qed.

(** Run the next call of a sequence with the equation [E] for its result. *)
Ltac fire E :=
  first [rewrite run_cons | rewrite dispatched_cons];
  cbn [exec dispatched_by state];
  rewrite E by (assumption || reflexivity || lia);
  cbv beta iota.

Lemma isr_quiet `{TWI_defs} (hw : twi_in) (s : i2c_data) :
  no_error hw = true ->
  i2c_state_isr hw s =
  match action_of (state s) hw s with
  | Some (next, s', o) => Some (tt, set_state next s', triage_reads ++ o)
  | None => None
  end.
Proof.
  intros Hq. rewrite isr_run, (effective_state_quiet hw s Hq).
  replace (set_state (state s) s) with s by (destruct s; reflexivity).
  reflexivity.
Qed.

(** The byte functions do not read [slave_addr]. *)
Lemma byte_function_ignores_address `{TWI_defs} (st : i2c_states_t)
    (hw : twi_in) (a : Z) (s : i2c_data) :
  byte_phase st = true ->
  action_of st hw (set_slave_addr a s) =
  match action_of st hw s with
  | Some (next, s', o) => Some (next, set_slave_addr a s', o)
  | None => None
  end.
Proof.
  intros Hb. destruct st; try discriminate; cbn [action_of].
  - unfold I2C_M_TX, bind, get, load. cbn [byte_array byte_count set_slave_addr].
    destruct (byte_count s <? 0); [reflexivity|].
    destruct (byte_array s !! Z.to_nat (byte_count s)); reflexivity.
  - unfold I2C_M_RX, bind, get, emit, store.
    cbn [byte_array byte_count set_slave_addr].
    destruct (byte_count s <? 0); [reflexivity|].
    destruct (byte_array s !! Z.to_nat (byte_count s)); reflexivity.
Qed.

(** C6. A write of three bytes without error flags: the effective states
    dispatched by [i2c_start] and the four events that follow are
    [I2C_START], three times [I2C_TX_BYTE] and [I2C_STOP], and the machine
    ends idle (a further event would dispatch [I2C_IDLE]); the data register
    is written exactly three times, with the first three bytes of the buffer
    in order.  The direction is read from [slave_addr] by the function of
    [I2C_START] only: the byte functions do not depend on it. *)
Theorem write_three_bytes `{TWI_defs} (b0 b1 b2 : Z) (rest : list Z)
    (addr rw : Z) (hw0 : twi_in) (evs : list twi_in) (s : i2c_data) :
  state s = I2C_IDLE ->
  Z.land (uint8 (Z.lor (Z.shiftl addr 1) rw)) I2C_READ_bm = 0 ->
  no_error hw0 = true ->
  length evs = 4%nat ->
  Forall (fun hw => no_error hw = true) evs ->
  dispatched (Call_set_buffer (b0 :: b1 :: b2 :: rest) 3
              :: Call_start addr rw hw0 :: map Irq evs) s =
    [I2C_START; I2C_TX_BYTE; I2C_TX_BYTE; I2C_TX_BYTE; I2C_STOP] /\
  (forall hw, no_error hw = true ->
     dispatched (Call_set_buffer (b0 :: b1 :: b2 :: rest) 3
                 :: Call_start addr rw hw0 :: map Irq (evs ++ [hw])) s =
       [I2C_START; I2C_TX_BYTE; I2C_TX_BYTE; I2C_TX_BYTE; I2C_STOP;
        I2C_IDLE]) /\
  (exists s',
     run (Call_set_buffer (b0 :: b1 :: b2 :: rest) 3
          :: Call_start addr rw hw0 :: map Irq evs) s =
       Some (tt, s',
             triage_reads ++
             [RegWrite MADDR (uint8 (Z.lor (Z.shiftl addr 1) rw))] ++
             triage_reads ++ [RegWrite MDATA b0] ++
             triage_reads ++ [RegWrite MDATA b1] ++
             triage_reads ++ [RegWrite MDATA b2] ++
             triage_reads ++ [RegOr MCTRLB TWI_MCMD_STOP_gc])
     /\ state s' = I2C_IDLE /\ byte_count s' = 3
     /\ byte_array s' = b0 :: b1 :: b2 :: rest) /\
  data_writes (final_log
     (run (Call_set_buffer (b0 :: b1 :: b2 :: rest) 3
           :: Call_start addr rw hw0 :: map Irq evs) s)) = [b0; b1; b2] /\
  (forall st hw a s1, byte_phase st = true ->
     action_of st hw (set_slave_addr a s1) =
     match action_of st hw s1 with
     | Some (next, s', o) => Some (next, set_slave_addr a s', o)
     | None => None
     end).
Proof.
  intros Hi Hw Hq0 Hlen Hall.
  destruct evs as [|hw1 [|hw2 [|hw3 [|hw4 [|? ?]]]]]; try discriminate.
  apply Forall_cons in Hall as [Hq1 Hall].
  apply Forall_cons in Hall as [Hq2 Hall].
  apply Forall_cons in Hall as [Hq3 Hall].
  apply Forall_cons in Hall as [Hq4 _].
  apply state_eqb_eq in Hi.
  cbn [map app].
  assert (Hstart : i2c_start addr rw hw0
            {| slave_addr := slave_addr s;
               byte_array := b0 :: b1 :: b2 :: rest;
               size_byte_array := 3; byte_count := 0; state := state s |} =
          Some (tt, {| slave_addr := uint8 (Z.lor (Z.shiftl addr 1) rw);
                       byte_array := b0 :: b1 :: b2 :: rest;
                       size_byte_array := 3; byte_count := 0;
                       state := I2C_TX_BYTE |},
                triage_reads ++
                [RegWrite MADDR (uint8 (Z.lor (Z.shiftl addr 1) rw))])).
  { rewrite start_call_run. cbn [state]. rewrite Hi.
    rewrite isr_quiet by assumption. cbn [state set_state action_of].
    rewrite start_run. cbn [slave_addr set_slave_addr set_state].
    rewrite Hw. reflexivity. }
  set (A := uint8 (Z.lor (Z.shiftl addr 1) rw)) in *.
  set (buf := b0 :: b1 :: b2 :: rest) in *.
  assert (Htx : forall hw k b next,
            no_error hw = true ->
            buf !! Z.to_nat k = Some b -> 0 <= k ->
            next = (if uint8 (k + 1) >=? 3 then I2C_STOP else I2C_TX_BYTE) ->
            i2c_state_isr hw
              {| slave_addr := A; byte_array := buf; size_byte_array := 3;
                 byte_count := k; state := I2C_TX_BYTE |} =
            Some (tt, {| slave_addr := A; byte_array := buf;
                         size_byte_array := 3; byte_count := uint8 (k + 1);
                         state := next |},
                  triage_reads ++ [RegWrite MDATA b])).
  { intros hw k b next Hq Hb Hk ->. rewrite isr_quiet by assumption.
    cbn [state action_of]. rewrite (tx_run hw _ b) by assumption.
    reflexivity. }
  assert (Hstop : forall hw st,
            no_error hw = true -> st = I2C_STOP \/ st = I2C_IDLE ->
            exists o,
            i2c_state_isr hw
              {| slave_addr := A; byte_array := buf; size_byte_array := 3;
                 byte_count := 3; state := st |} =
            Some (tt, {| slave_addr := A; byte_array := buf;
                         size_byte_array := 3; byte_count := 3;
                         state := I2C_IDLE |}, triage_reads ++ o)
            /\ (st = I2C_STOP -> o = [RegOr MCTRLB TWI_MCMD_STOP_gc])).
  { intros hw st Hq [-> | ->]; rewrite isr_quiet by assumption;
      eexists; (split; [reflexivity|]); [reflexivity | discriminate]. }
  assert (Hrun : run (Call_set_buffer buf 3 :: Call_start addr rw hw0
                      :: [Irq hw1; Irq hw2; Irq hw3; Irq hw4]) s =
       Some (tt, {| slave_addr := A; byte_array := buf;
                    size_byte_array := 3; byte_count := 3;
                    state := I2C_IDLE |},
             triage_reads ++ [RegWrite MADDR A] ++
             triage_reads ++ [RegWrite MDATA b0] ++
             triage_reads ++ [RegWrite MDATA b1] ++
             triage_reads ++ [RegWrite MDATA b2] ++
             triage_reads ++ [RegOr MCTRLB TWI_MCMD_STOP_gc])).
  { destruct (Hstop hw4 I2C_STOP Hq4 (or_introl eq_refl)) as (o & Hs4 & Ho).
    rewrite (Ho eq_refl) in Hs4.
    fire set_buffer_run. fire Hstart.
    fire (Htx hw1 0 b0 I2C_TX_BYTE). change (uint8 (0 + 1)) with 1.
    fire (Htx hw2 1 b1 I2C_TX_BYTE). change (uint8 (1 + 1)) with 2.
    fire (Htx hw3 2 b2 I2C_STOP). change (uint8 (2 + 1)) with 3.
    fire Hs4. reflexivity. }
  assert (Hdis : dispatched (Call_set_buffer buf 3 :: Call_start addr rw hw0
                             :: [Irq hw1; Irq hw2; Irq hw3; Irq hw4]) s =
       [I2C_START; I2C_TX_BYTE; I2C_TX_BYTE; I2C_TX_BYTE; I2C_STOP]).
  { fire set_buffer_run.
    rewrite dispatched_cons; cbn [exec dispatched_by state].
    rewrite Hi, Hstart; cbv beta iota.
    fire (Htx hw1 0 b0 I2C_TX_BYTE). change (uint8 (0 + 1)) with 1.
    fire (Htx hw2 1 b1 I2C_TX_BYTE). change (uint8 (1 + 1)) with 2.
    fire (Htx hw3 2 b2 I2C_STOP).
    rewrite dispatched_cons; cbn [exec dispatched_by].
    rewrite !effective_state_quiet by assumption.
    destruct (i2c_state_isr hw4 _) as [[[[] ?] ?]|]; reflexivity. }
  split; [|split; [|split; [|split]]].
  - exact Hdis.
  - intros hw Hq.
    pose proof (dispatched_app
                  (Call_set_buffer buf 3 :: Call_start addr rw hw0
                   :: [Irq hw1; Irq hw2; Irq hw3; Irq hw4]) [Irq hw] s)
      as Happ.
    cbn [app] in Happ. rewrite Happ, Hdis, Hrun.
    cbn [dispatched dispatched_by].
    rewrite effective_state_quiet by assumption.
    destruct (exec _ _) as [[[[] ?] ?]|]; reflexivity.
  - eexists. split; [exact Hrun|]. repeat split.
  - rewrite Hrun. reflexivity.
  - intros st hw a s1. apply byte_function_ignores_address.
Qed.

(** C6 for the bytes 10, 20, 30 written to address 0x50. *)
Lemma write_three_bytes_witness :
  dispatched (Call_set_buffer [10; 20; 30] 3 :: Call_start 0x50 0 quiet
              :: map Irq [quiet; quiet; quiet; quiet]) i2c_fsm0 =
    [I2C_START; I2C_TX_BYTE; I2C_TX_BYTE; I2C_TX_BYTE; I2C_STOP] /\
  data_writes (final_log
     (run (Call_set_buffer [10; 20; 30] 3 :: Call_start 0x50 0 quiet
           :: map Irq [quiet; quiet; quiet; quiet]) i2c_fsm0)) =
    [10; 20; 30].
Proof.
  destruct (write_three_bytes 10 20 30 [] 0x50 0 quiet
              [quiet; quiet; quiet; quiet] i2c_fsm0)
    as (Hd & _ & _ & Hw & _);
    [reflexivity | reflexivity | reflexivity | reflexivity
    | repeat constructor |].
  split; assumption.
Defined.

(** * Whole transfers *)

Lemma isr_error `{TWI_defs} (hw : twi_in) (s : i2c_data) :
  no_error hw = false ->
  i2c_state_isr hw s = Some (tt, set_state I2C_IDLE s, stop_log).
Proof.
  intros Hq. rewrite isr_run, effective_state_cases.
  unfold no_error in Hq. destruct s.
  flag_cases hw; try discriminate; reflexivity.
Qed.

Lemma isr_quiet_tx `{TWI_defs} (hw : twi_in) (s : i2c_data) (b : Z) :
  state s = I2C_TX_BYTE -> no_error hw = true ->
  0 <= byte_count s < 255 ->
  byte_array s !! Z.to_nat (byte_count s) = Some b ->
  i2c_state_isr hw s =
  Some (tt,
        set_state (if byte_count s + 1 >=? size_byte_array s
                   then I2C_STOP else I2C_TX_BYTE)
          (set_byte_count (byte_count s + 1) s),
        triage_reads ++ [RegWrite MDATA b]).
Proof.
  intros Hst Hq Hc Hb. rewrite isr_quiet by assumption.
  rewrite Hst. cbn [action_of]. rewrite (tx_run hw s b) by (lia || assumption).
  rewrite uint8_small by lia. reflexivity.
Qed.

Lemma isr_quiet_rx `{TWI_defs} (hw : twi_in) (s : i2c_data) (b : Z) :
  state s = I2C_RX_BYTE -> no_error hw = true ->
  0 <= byte_count s < 255 ->
  byte_array s !! Z.to_nat (byte_count s) = Some b ->
  i2c_state_isr hw s =
  Some (tt,
        set_state (if byte_count s + 1 >=? size_byte_array s
                   then I2C_STOP else I2C_RX_BYTE)
          (set_byte_count (byte_count s + 1)
             (set_byte_array
                (<[Z.to_nat (byte_count s) := MDATA_val hw]> (byte_array s))
                s)),
        triage_reads ++ [RegRead MDATA]).
Proof.
  intros Hst Hq Hc Hb. rewrite isr_quiet by assumption.
  rewrite Hst. cbn [action_of]. rewrite (rx_run hw s b) by (lia || assumption).
  rewrite uint8_small by lia. reflexivity.
Qed.

(** Quiet events in [I2C_TX_BYTE], as long as bytes are left to send and the
    buffer holds them: each sends the next byte. *)
Lemma tx_quiet_run `{TWI_defs} (evs : list twi_in) (s : i2c_data) :
  state s = I2C_TX_BYTE ->
  0 <= byte_count s < size_byte_array s ->
  size_byte_array s <= 255 ->
  byte_count s + Z.of_nat (length evs) <= size_byte_array s ->
  byte_count s + Z.of_nat (length evs) <= Z.of_nat (length (byte_array s)) ->
  Forall (fun hw => no_error hw = true) evs ->
  run (map Irq evs) s =
    Some (tt,
          set_state (if byte_count s + Z.of_nat (length evs)
                          >=? size_byte_array s
                     then I2C_STOP else I2C_TX_BYTE)
            (set_byte_count (byte_count s + Z.of_nat (length evs)) s),
          tx_log (take (length evs)
                       (drop (Z.to_nat (byte_count s)) (byte_array s)))) /\
  dispatched (map Irq evs) s = replicate (length evs) I2C_TX_BYTE.
Proof.
  revert s. induction evs as [|hw evs IH]; intros s Hst Hc Hz Hk Hl Hq.
  - cbn [length map run dispatched replicate take]. rewrite Z.add_0_r.
    destruct (Z.geb_spec (byte_count s) (size_byte_array s)); [lia|].
    split; [|reflexivity]. destruct s; cbn in *; subst; reflexivity.
  - apply Forall_cons in Hq as [Hq1 Hq].
    cbn [length] in Hk, Hl.
    destruct (lookup_in_buffer (byte_array s) (byte_count s)) as [b Hb]; [lia|].
    cbn [map]. rewrite run_cons, dispatched_cons. cbn [exec dispatched_by].
    rewrite (isr_quiet_tx hw s b) by (assumption || lia).
    rewrite (effective_state_quiet hw s Hq1), Hst.
    rewrite (drop_S _ _ _ Hb). cbn [length take tx_log flat_map replicate].
    fold (tx_log (take (length evs)
                    (drop (S (Z.to_nat (byte_count s))) (byte_array s)))).
    replace (byte_count s + Z.of_nat (S (length evs)))
      with (byte_count s + 1 + Z.of_nat (length evs)) by lia.
    destruct (Z.geb_spec (byte_count s + 1) (size_byte_array s)) as [Hge|Hlt].
    + assert (evs = []) as -> by (destruct evs; [reflexivity | cbn in Hk; lia]).
      cbn [length map run dispatched replicate take tx_log flat_map].
      rewrite Z.add_0_r.
      destruct (Z.geb_spec (byte_count s + 1) (size_byte_array s)); [|lia].
      split; reflexivity.
    + set (s1 := set_state I2C_TX_BYTE (set_byte_count (byte_count s + 1) s)).
      destruct (IH s1) as [Hrun Hdis]; try assumption;
        try (subst s1; cbn; lia); [reflexivity|].
      rewrite Hrun, Hdis. subst s1.
      cbn [byte_count size_byte_array byte_array set_state set_byte_count].
      replace (Z.to_nat (byte_count s + 1)) with (S (Z.to_nat (byte_count s)))
        by lia.
      split; [|reflexivity].
      destruct s; reflexivity.
Qed.

(** Quiet events in [I2C_RX_BYTE], as long as bytes are left to receive and
    the buffer has room: each stores what MDATA shows at the next place. *)
Lemma rx_quiet_run `{TWI_defs} (evs : list twi_in) (s : i2c_data) :
  state s = I2C_RX_BYTE ->
  0 <= byte_count s < size_byte_array s ->
  size_byte_array s <= 255 ->
  byte_count s + Z.of_nat (length evs) <= size_byte_array s ->
  byte_count s + Z.of_nat (length evs) <= Z.of_nat (length (byte_array s)) ->
  Forall (fun hw => no_error hw = true) evs ->
  run (map Irq evs) s =
    Some (tt,
          set_state (if byte_count s + Z.of_nat (length evs)
                          >=? size_byte_array s
                     then I2C_STOP else I2C_RX_BYTE)
            (set_byte_count (byte_count s + Z.of_nat (length evs))
               (set_byte_array
                  (take (Z.to_nat (byte_count s)) (byte_array s)
                   ++ map MDATA_val evs
                   ++ drop (Z.to_nat (byte_count s) + length evs)
                           (byte_array s)) s)),
          rx_log (length evs)) /\
  dispatched (map Irq evs) s = replicate (length evs) I2C_RX_BYTE.
Proof.
  revert s. induction evs as [|hw evs IH]; intros s Hst Hc Hz Hk Hl Hq.
  - cbn [length map run dispatched replicate rx_log concat app].
    rewrite Z.add_0_r, Nat.add_0_r, take_drop.
    destruct (Z.geb_spec (byte_count s) (size_byte_array s)); [lia|].
    split; [|reflexivity]. destruct s; cbn in *; subst; reflexivity.
  - apply Forall_cons in Hq as [Hq1 Hq].
    cbn [length] in Hk, Hl.
    destruct (lookup_in_buffer (byte_array s) (byte_count s)) as [b Hb]; [lia|].
    cbn [map]. rewrite run_cons, dispatched_cons. cbn [exec dispatched_by].
    rewrite (isr_quiet_rx hw s b) by (assumption || lia).
    rewrite (effective_state_quiet hw s Hq1), Hst.
    cbn [length rx_log replicate concat].
    fold (rx_log (length evs)).
    replace (byte_count s + Z.of_nat (S (length evs)))
      with (byte_count s + 1 + Z.of_nat (length evs)) by lia.
    set (c := Z.to_nat (byte_count s)) in *.
    assert (Hcl : (c < length (byte_array s))%nat) by (subst c; lia).
    assert (Hbuf :
      take (S c) (<[c := MDATA_val hw]> (byte_array s))
      ++ map MDATA_val evs
      ++ drop (S c + length evs) (<[c := MDATA_val hw]> (byte_array s))
      = take c (byte_array s) ++ (MDATA_val hw :: map MDATA_val evs)
        ++ drop (c + S (length evs)) (byte_array s)).
    { rewrite (take_S_r _ c (MDATA_val hw))
        by (apply list_lookup_insert_eq; assumption).
      rewrite take_insert_ge by lia.
      rewrite drop_insert_lt by lia.
      rewrite <- app_assoc. cbn [app].
      replace (S c + length evs)%nat with (c + S (length evs))%nat by lia.
      reflexivity. }
    destruct (Z.geb_spec (byte_count s + 1) (size_byte_array s)) as [Hge|Hlt].
    + assert (evs = []) as -> by (destruct evs; [reflexivity | cbn in Hk; lia]).
      cbn [length map run dispatched replicate rx_log concat] in *.
      rewrite Z.add_0_r.
      destruct (Z.geb_spec (byte_count s + 1) (size_byte_array s)); [|lia].
      split; [|reflexivity].
      rewrite app_nil_r. cbn [app] in Hbuf.
      rewrite insert_take_drop by assumption.
      replace (c + 1)%nat with (S c) by lia.
      reflexivity.
    + set (s1 := set_state I2C_RX_BYTE
                   (set_byte_count (byte_count s + 1)
                      (set_byte_array (<[c := MDATA_val hw]> (byte_array s))
                         s))).
      destruct (IH s1) as [Hrun Hdis]; try assumption;
        try (subst s1; cbn; rewrite ?length_insert; lia); [reflexivity|].
      rewrite Hrun, Hdis. subst s1.
      cbn [byte_count size_byte_array byte_array set_state set_byte_count
           set_byte_array].
      replace (Z.to_nat (byte_count s + 1)) with (S c) by (subst c; lia).
      rewrite Hbuf.
      split; [|reflexivity].
      destruct s; reflexivity.
Qed.

(** [i2c_set_buffer] and [i2c_start] on an idle machine, no error flag
    showing: the address goes out and the byte state is selected. *)
Lemma begin_quiet `{TWI_defs} (buff : list Z) (size addr rw : Z)
    (hw : twi_in) (s : i2c_data) :
  state s = I2C_IDLE -> no_error hw = true ->
  run [Call_set_buffer buff size; Call_start addr rw hw] s =
    Some (tt,
          {| slave_addr := uint8 (Z.lor (Z.shiftl addr 1) rw);
             byte_array := buff; size_byte_array := size; byte_count := 0;
             state := direction (uint8 (Z.lor (Z.shiftl addr 1) rw)) |},
          triage_reads ++
          [RegWrite MADDR (uint8 (Z.lor (Z.shiftl addr 1) rw))]) /\
  dispatched [Call_set_buffer buff size; Call_start addr rw hw] s =
    [I2C_START].
Proof.
  intros Hi Hq. split.
  - rewrite (begin_from_idle buff size addr rw hw s Hi).
    rewrite isr_quiet by assumption. reflexivity.
  - rewrite dispatched_cons. cbn [dispatched_by exec app].
    rewrite set_buffer_run, dispatched_cons.
    cbn [dispatched_by exec state]. apply state_eqb_eq in Hi. rewrite Hi.
    rewrite effective_state_quiet by assumption.
    cbn [state set_state app].
    destruct (i2c_start _ _ _ _) as [[[[] ?] ?]|]; reflexivity.
Qed.

(** The event that ends a transaction: any event with an error flag, or a
    quiet one in [I2C_STOP]. *)
Lemma isr_ends `{TWI_defs} (hw : twi_in) (s : i2c_data) :
  no_error hw = false \/ state s = I2C_STOP ->
  i2c_state_isr hw s = Some (tt, set_state I2C_IDLE s, stop_log).
Proof.
  intros Hend. destruct (no_error hw) eqn:Hq.
  - destruct Hend as [|Hst]; [discriminate|].
    rewrite isr_quiet by assumption. rewrite Hst. reflexivity.
  - apply isr_error, Hq.
Qed.

Lemma data_writes_app (o1 o2 : list twi_op) :
  data_writes (o1 ++ o2) = data_writes o1 ++ data_writes o2.
Proof. apply omap_app. Qed.

Lemma data_writes_tx_log (bs : list Z) : data_writes (tx_log bs) = bs.
Proof.
  induction bs as [|b bs IH]; [reflexivity|].
  cbn [tx_log flat_map]. rewrite data_writes_app.
  fold (tx_log bs). rewrite IH. reflexivity.
Qed.

Lemma data_writes_rx_log (k : nat) : data_writes (rx_log k) = [].
Proof.
  induction k as [|k IH]; [reflexivity|].
  cbn [rx_log replicate concat]. rewrite data_writes_app.
  fold (rx_log k). rewrite IH. reflexivity.
Qed.

(** X1. A write transfer of any length: on an idle machine, after
    [i2c_set_buffer] and [i2c_start] with the read bit clear, [k] quiet
    events send the first [k] bytes of the buffer in order, and the event
    that ends the transaction (a quiet one once [k] is the size, or one with
    an error flag at any [k] up to the size) issues the stop command and
    leaves the machine idle with the count at [k] and the buffer untouched.
    The register log is exactly the address write, the [k] data writes and
    the stop command, each after its three status reads. *)
Theorem write_transfer `{TWI_defs} (buff : list Z) (size addr rw : Z)
    (hw0 : twi_in) (evs : list twi_in) (hwE : twi_in) (s : i2c_data) :
  state s = I2C_IDLE ->
  1 <= size <= 255 ->
  direction (uint8 (Z.lor (Z.shiftl addr 1) rw)) = I2C_TX_BYTE ->
  no_error hw0 = true ->
  Forall (fun hw => no_error hw = true) evs ->
  Z.of_nat (length evs) <= size ->
  Z.of_nat (length evs) <= Z.of_nat (length buff) ->
  no_error hwE = false \/ Z.of_nat (length evs) = size ->
  run (Call_set_buffer buff size :: Call_start addr rw hw0
       :: map Irq (evs ++ [hwE])) s =
    Some (tt,
          {| slave_addr := uint8 (Z.lor (Z.shiftl addr 1) rw);
             byte_array := buff; size_byte_array := size;
             byte_count := Z.of_nat (length evs); state := I2C_IDLE |},
          (triage_reads ++
           [RegWrite MADDR (uint8 (Z.lor (Z.shiftl addr 1) rw))]) ++
          tx_log (take (length evs) buff) ++ stop_log) /\
  dispatched (Call_set_buffer buff size :: Call_start addr rw hw0
              :: map Irq (evs ++ [hwE])) s =
    [I2C_START] ++ replicate (length evs) I2C_TX_BYTE ++
    [effective_state hwE (set_state I2C_STOP s)] /\
  data_writes (final_log
     (run (Call_set_buffer buff size :: Call_start addr rw hw0
           :: map Irq (evs ++ [hwE])) s)) = take (length evs) buff.
Proof.
  intros Hi Hs Hdir Hq0 Hq Hk Hl Hend.
  destruct (begin_quiet buff size addr rw hw0 s Hi Hq0) as [Hb Hbd].
  rewrite Hdir in Hb.
  set (A := uint8 (Z.lor (Z.shiftl addr 1) rw)) in *.
  set (s1 := {| slave_addr := A; byte_array := buff; size_byte_array := size;
                byte_count := 0; state := I2C_TX_BYTE |}) in *.
  destruct (tx_quiet_run evs s1) as [Ht Htd]; try assumption;
    try (subst s1; cbn; lia); [reflexivity|].
  cbn [byte_count size_byte_array byte_array s1 Z.to_nat drop] in Ht.
  rewrite Z.add_0_l in Ht.
  set (s2 := set_state _ (set_byte_count _ s1)) in Ht.
  assert (He : i2c_state_isr hwE s2 = Some (tt, set_state I2C_IDLE s2, stop_log)).
  { apply isr_ends. destruct Hend as [He|He]; [left; exact He|right].
    subst s2. cbn [state set_state].
    destruct (Z.geb_spec (Z.of_nat (length evs)) size); [reflexivity | lia]. }
  assert (Hrun : run (Call_set_buffer buff size :: Call_start addr rw hw0
                      :: map Irq (evs ++ [hwE])) s =
    Some (tt,
          {| slave_addr := A; byte_array := buff; size_byte_array := size;
             byte_count := Z.of_nat (length evs); state := I2C_IDLE |},
          (triage_reads ++ [RegWrite MADDR A]) ++
          tx_log (take (length evs) buff) ++ stop_log)).
  { rewrite map_app.
    change (Call_set_buffer buff size :: Call_start addr rw hw0
            :: map Irq evs ++ map Irq [hwE])
      with ([Call_set_buffer buff size; Call_start addr rw hw0]
            ++ map Irq evs ++ [Irq hwE]).
    rewrite run_app, Hb, run_app, Ht. cbn [run exec]. unfold bind at 1.
    rewrite He. cbn [ret]. rewrite app_nil_r. reflexivity. }
  split; [exact Hrun|]. split.
  - rewrite map_app.
    change (Call_set_buffer buff size :: Call_start addr rw hw0
            :: map Irq evs ++ map Irq [hwE])
      with ([Call_set_buffer buff size; Call_start addr rw hw0]
            ++ map Irq evs ++ [Irq hwE]).
    rewrite dispatched_app, Hbd, Hb, dispatched_app, Htd, Ht.
    cbn [map dispatched dispatched_by exec]. rewrite He, app_nil_r.
    do 3 f_equal. rewrite !effective_state_cases.
    destruct Hend as [He'|He'].
    + unfold no_error in He'. flag_cases hwE; try reflexivity; discriminate.
    + subst s2. cbn [state set_state].
      destruct (Z.geb_spec (Z.of_nat (length evs)) size); [reflexivity | lia].
  - rewrite Hrun. cbn [final_log].
    rewrite !data_writes_app, data_writes_tx_log.
    unfold stop_log, triage_reads. cbn. apply app_nil_r.
Qed.

(** X1 on a write of three bytes that the peer refuses after the second. *)
Lemma write_transfer_witness :
  run (Call_set_buffer [10; 20; 30] 3 :: Call_start 0x50 0 quiet
       :: map Irq ([quiet; quiet] ++ [nack_event])) i2c_fsm0 =
    Some (tt,
          {| slave_addr := 0xA0; byte_array := [10; 20; 30];
             size_byte_array := 3; byte_count := 2; state := I2C_IDLE |},
          (triage_reads ++ [RegWrite MADDR 0xA0]) ++
          tx_log [10; 20] ++ stop_log).
Proof.
  apply (write_transfer [10; 20; 30] 3 0x50 0 quiet [quiet; quiet]
           nack_event i2c_fsm0);
    solve [reflexivity | cbn; lia | left; reflexivity
          | repeat constructor].
Defined.

(** X2. A read transfer of any length: on an idle machine, after
    [i2c_set_buffer] and [i2c_start] with the read bit set, [k] quiet events
    store what MDATA shows at places 0 to [k-1] of the buffer, in order, and
    leave the rest of the buffer as it was; the event that ends the
    transaction (a quiet one once [k] is the size, or one with an error flag
    at any [k] up to the size) issues the stop command and leaves the machine
    idle with the count at [k].  The data register is read [k] times and
    never written. *)
Theorem read_transfer `{TWI_defs} (buff : list Z) (size addr rw : Z)
    (hw0 : twi_in) (evs : list twi_in) (hwE : twi_in) (s : i2c_data) :
  state s = I2C_IDLE ->
  1 <= size <= 255 ->
  direction (uint8 (Z.lor (Z.shiftl addr 1) rw)) = I2C_RX_BYTE ->
  no_error hw0 = true ->
  Forall (fun hw => no_error hw = true) evs ->
  Z.of_nat (length evs) <= size ->
  Z.of_nat (length evs) <= Z.of_nat (length buff) ->
  no_error hwE = false \/ Z.of_nat (length evs) = size ->
  run (Call_set_buffer buff size :: Call_start addr rw hw0
       :: map Irq (evs ++ [hwE])) s =
    Some (tt,
          {| slave_addr := uint8 (Z.lor (Z.shiftl addr 1) rw);
             byte_array := map MDATA_val evs ++ drop (length evs) buff;
             size_byte_array := size;
             byte_count := Z.of_nat (length evs); state := I2C_IDLE |},
          (triage_reads ++
           [RegWrite MADDR (uint8 (Z.lor (Z.shiftl addr 1) rw))]) ++
          rx_log (length evs) ++ stop_log) /\
  dispatched (Call_set_buffer buff size :: Call_start addr rw hw0
              :: map Irq (evs ++ [hwE])) s =
    [I2C_START] ++ replicate (length evs) I2C_RX_BYTE ++
    [effective_state hwE (set_state I2C_STOP s)] /\
  data_writes (final_log
     (run (Call_set_buffer buff size :: Call_start addr rw hw0
           :: map Irq (evs ++ [hwE])) s)) = [].
Proof.
  intros Hi Hs Hdir Hq0 Hq Hk Hl Hend.
  destruct (begin_quiet buff size addr rw hw0 s Hi Hq0) as [Hb Hbd].
  rewrite Hdir in Hb.
  set (A := uint8 (Z.lor (Z.shiftl addr 1) rw)) in *.
  set (s1 := {| slave_addr := A; byte_array := buff; size_byte_array := size;
                byte_count := 0; state := I2C_RX_BYTE |}) in *.
  destruct (rx_quiet_run evs s1) as [Ht Htd]; try assumption;
    try (subst s1; cbn; lia); [reflexivity|].
  cbn [byte_count size_byte_array byte_array s1 Z.to_nat take app Nat.add]
    in Ht.
  rewrite Z.add_0_l in Ht.
  set (s2 := set_state _ (set_byte_count _ _)) in Ht.
  assert (He : i2c_state_isr hwE s2 = Some (tt, set_state I2C_IDLE s2, stop_log)).
  { apply isr_ends. destruct Hend as [He|He]; [left; exact He|right].
    subst s2. cbn [state set_state].
    destruct (Z.geb_spec (Z.of_nat (length evs)) size); [reflexivity | lia]. }
  assert (Hrun : run (Call_set_buffer buff size :: Call_start addr rw hw0
                      :: map Irq (evs ++ [hwE])) s =
    Some (tt,
          {| slave_addr := A;
             byte_array := map MDATA_val evs ++ drop (length evs) buff;
             size_byte_array := size;
             byte_count := Z.of_nat (length evs); state := I2C_IDLE |},
          (triage_reads ++ [RegWrite MADDR A]) ++
          rx_log (length evs) ++ stop_log)).
  { rewrite map_app.
    change (Call_set_buffer buff size :: Call_start addr rw hw0
            :: map Irq evs ++ map Irq [hwE])
      with ([Call_set_buffer buff size; Call_start addr rw hw0]
            ++ map Irq evs ++ [Irq hwE]).
    rewrite run_app, Hb, run_app, Ht. cbn [run exec]. unfold bind at 1.
    rewrite He. cbn [ret]. rewrite app_nil_r. reflexivity. }
  split; [exact Hrun|]. split.
  - rewrite map_app.
    change (Call_set_buffer buff size :: Call_start addr rw hw0
            :: map Irq evs ++ map Irq [hwE])
      with ([Call_set_buffer buff size; Call_start addr rw hw0]
            ++ map Irq evs ++ [Irq hwE]).
    rewrite dispatched_app, Hbd, Hb, dispatched_app, Htd, Ht.
    cbn [map dispatched dispatched_by exec]. rewrite He, app_nil_r.
    do 3 f_equal. rewrite !effective_state_cases.
    destruct Hend as [He'|He'].
    + unfold no_error in He'. flag_cases hwE; try reflexivity; discriminate.
    + subst s2. cbn [state set_state].
      destruct (Z.geb_spec (Z.of_nat (length evs)) size); [reflexivity | lia].
  - rewrite Hrun. cbn [final_log].
    rewrite !data_writes_app, data_writes_rx_log.
    unfold stop_log, triage_reads. reflexivity.
Qed.

(** X2 on a complete read of two bytes into a buffer of three. *)
Lemma read_transfer_witness :
  run (Call_set_buffer [1; 2; 3] 2 :: Call_start 0x21 1 quiet
       :: map Irq ([data_event; data_event] ++ [quiet])) i2c_fsm0 =
    Some (tt,
          {| slave_addr := 0x43; byte_array := [0x5A; 0x5A; 3];
             size_byte_array := 2; byte_count := 2; state := I2C_IDLE |},
          (triage_reads ++ [RegWrite MADDR 0x43]) ++
          rx_log 2 ++ stop_log).
Proof.
  apply (read_transfer [1; 2; 3] 2 0x21 1 quiet [data_event; data_event]
           quiet i2c_fsm0);
    solve [reflexivity | cbn; lia | right; reflexivity
          | repeat constructor].
Defined.

(** * Ends of transactions *)

Lemma byte_ends `{TWI_defs} (evs : list twi_in) (s : i2c_data) :
  bounded s -> byte_phase (state s) = true ->
  (Z.to_nat (size_byte_array s - byte_count s) < length evs)%nat ->
  exists s' o, run (map Irq evs) s = Some (tt, s', o)
    /\ state s' = I2C_IDLE
    /\ 0 <= byte_count s' <= size_byte_array s
    /\ size_byte_array s' = size_byte_array s.
Proof.
  revert s. induction evs as [|hw evs IH]; intros s Hb Hp Hlen.
  - cbn in Hlen. lia.
  - cbn [map]. rewrite run_cons. cbn [exec length] in *.
    assert (Hlt : 0 <= byte_count s < size_byte_array s)
      by (destruct Hb as (? & ? & ? & Hlt); specialize (Hlt Hp); lia).
    destruct (no_error hw) eqn:Hq.
    + destruct (isr_quiet_byte hw s Hb Hp Hq)
        as (s1 & o1 & -> & Hb1 & Hz1 & Hc1 & Hst1).
      destruct (Z.geb_spec (byte_count s + 1) (size_byte_array s)) as [Hge|Hn].
      * destruct (run_settled evs s1)
          as (s2 & o2 & -> & Hc2 & Hz2 & _ & _ & Hst2);
          [rewrite Hst1; reflexivity | rewrite Hst1; discriminate |].
        eexists _, _. split; [reflexivity|].
        rewrite Hst2, Hc2, Hz2, Hc1, Hz1.
        destruct evs; [cbn in Hlen; lia|]. repeat split; lia.
      * destruct (IH s1 Hb1) as (s2 & o2 & -> & Hst2 & Hc2 & Hz2);
          [rewrite Hst1; assumption | rewrite Hz1, Hc1; lia |].
        eexists _, _. split; [reflexivity|].
        rewrite Hz1 in *. repeat split; (assumption || lia).
    + destruct (error_effective hw s Hq) as (He1 & He2 & _).
      destruct (isr_settle hw s He1 He2) as (o1 & ->).
      destruct (run_settled evs (set_state I2C_IDLE s))
        as (s2 & o2 & -> & Hc2 & Hz2 & _ & _ & Hst2);
        [reflexivity | discriminate |].
      cbn in Hc2, Hz2, Hst2.
      eexists _, _. split; [reflexivity|].
      rewrite Hst2, Hc2, Hz2. destruct evs; repeat split; lia.
Qed.

(** X3. Every transaction ends: on an idle machine, after [i2c_set_buffer]
    with a size of at least 1 within the buffer and [i2c_start], any [size + 1]
    or more events, whatever flags and data they show, leave the machine
    idle, without any access outside the buffer and with the count between 0
    and the size. *)
Theorem transaction_ends `{TWI_defs} (buff : list Z) (size addr rw : Z)
    (hw0 : twi_in) (evs : list twi_in) (s : i2c_data) :
  state s = I2C_IDLE ->
  1 <= size <= 255 -> size <= Z.of_nat (length buff) ->
  size + 1 <= Z.of_nat (length evs) ->
  exists s' o,
    run (Call_set_buffer buff size :: Call_start addr rw hw0 :: map Irq evs) s
      = Some (tt, s', o)
    /\ state s' = I2C_IDLE
    /\ 0 <= byte_count s' <= size
    /\ size_byte_array s' = size.
Proof.
  intros Hi Hs Hl Hlen.
  destruct (set_buffer_bounded buff size s Hs Hl)
    as (s0 & Hset & Hb0 & Hst0 & Hz0 & Hc0 & _).
  rewrite run_cons. cbn [exec]. rewrite Hset.
  rewrite run_cons. cbn [exec].
  destruct (start_step addr rw hw0 s0 Hb0)
    as (s1 & o1 & -> & Hb1 & Hz1 & Hc1 & Hq); [congruence | assumption |].
  destruct (no_error hw0).
  - destruct (byte_ends evs s1 Hb1 Hq) as (s2 & o2 & -> & Hst2 & Hc2 & Hz2);
      [rewrite Hz1, Hz0, Hc1; lia|].
    eexists _, _. split; [reflexivity|].
    rewrite Hz1, Hz0 in *. repeat split; (assumption || lia).
  - destruct (run_settled evs s1)
      as (s2 & o2 & -> & Hc2 & Hz2 & _ & _ & Hst2);
      [rewrite Hq; reflexivity | rewrite Hq; discriminate |].
    eexists _, _. split; [reflexivity|].
    rewrite Hst2, Hc2, Hz2, Hc1, Hz1, Hz0, Hq.
    destruct evs; repeat split; lia.
Qed.

(** X3 on a write of two bytes whose three events all show a bus error or a
    NACK. *)
Lemma transaction_ends_witness :
  exists s' o,
    run (Call_set_buffer [10; 20] 2 :: Call_start 0x50 0 quiet
         :: map Irq [nack_bus_event; quiet; nack_event]) i2c_fsm0
      = Some (tt, s', o)
    /\ state s' = I2C_IDLE
    /\ 0 <= byte_count s' <= 2
    /\ size_byte_array s' = 2.
Proof.
  apply (transaction_ends [10; 20] 2 0x50 0 quiet
           [nack_bus_event; quiet; nack_event] i2c_fsm0);
    solve [reflexivity | cbn; lia].
Defined.

(** X4. A buffer shorter than the declared size: with [len] bytes in the
    buffer and a size above [len] (or no byte at all, as in the
    zero-initialised context), a transaction whose events show no error flag
    moves the [len] bytes and then, at the next event, accesses the place
    after the buffer: the run is undefined. *)
Theorem short_buffer_overrun `{TWI_defs} (buff : list Z) (size addr rw : Z)
    (hw0 : twi_in) (evs : list twi_in) (hwL : twi_in) (s : i2c_data) :
  state s = I2C_IDLE ->
  0 <= size <= 255 ->
  buff = [] \/ Z.of_nat (length buff) < size ->
  length evs = length buff ->
  no_error hw0 = true ->
  Forall (fun hw => no_error hw = true) evs ->
  no_error hwL = true ->
  is_Some (run (Call_set_buffer buff size :: Call_start addr rw hw0
                :: map Irq evs) s) /\
  run (Call_set_buffer buff size :: Call_start addr rw hw0
       :: map Irq (evs ++ [hwL])) s = None.
Proof.
  intros Hi Hs Hshort Hlen Hq0 Hq HqL.
  destruct (begin_quiet buff size addr rw hw0 s Hi Hq0) as [Hb _].
  set (A := uint8 (Z.lor (Z.shiftl addr 1) rw)) in *.
  set (s1 := {| slave_addr := A; byte_array := buff; size_byte_array := size;
                byte_count := 0; state := direction A |}) in *.
  assert (Hmid : exists s2 o2, run (map Irq evs) s1 = Some (tt, s2, o2)
            /\ state s2 = direction A
            /\ byte_count s2 = Z.of_nat (length buff)
            /\ length (byte_array s2) = length buff).
  { destruct Hshort as [-> | Hlt].
    - destruct evs; [|discriminate]. exists s1, [].
      repeat split.
    - assert (Hd : direction A = I2C_TX_BYTE \/ direction A = I2C_RX_BYTE)
        by (unfold direction; destruct (c_true _); auto).
      destruct Hd as [Hd | Hd].
      + destruct (tx_quiet_run evs s1) as [Ht _];
          try (subst s1; cbn; lia); try assumption.
        rewrite Ht. eexists _, _. split; [reflexivity|].
        subst s1. cbn. rewrite Hlen, ?Z.add_0_l.
        destruct (Z.geb_spec (Z.of_nat (length buff)) size); [lia|].
        repeat split. symmetry; assumption.
      + destruct (rx_quiet_run evs s1) as [Ht _];
          try (subst s1; cbn; lia); try assumption.
        rewrite Ht. eexists _, _. split; [reflexivity|].
        subst s1. cbn. rewrite Hlen, ?Z.add_0_l.
        destruct (Z.geb_spec (Z.of_nat (length buff)) size); [lia|].
        repeat split; [symmetry; assumption|].
        rewrite !length_app, length_map, length_take, length_drop. lia. }
  destruct Hmid as (s2 & o2 & Hrun2 & Hst2 & Hc2 & Hl2).
  split.
  - change (Call_set_buffer buff size :: Call_start addr rw hw0 :: map Irq evs)
      with ([Call_set_buffer buff size; Call_start addr rw hw0]
            ++ map Irq evs).
    rewrite run_app, Hb, Hrun2. eexists; reflexivity.
  - rewrite map_app.
    change (Call_set_buffer buff size :: Call_start addr rw hw0
            :: map Irq evs ++ map Irq [hwL])
      with ([Call_set_buffer buff size; Call_start addr rw hw0]
            ++ map Irq evs ++ [Irq hwL]).
    rewrite run_app, Hb, run_app, Hrun2. cbn [run exec]. unfold bind at 1.
    rewrite isr_quiet by assumption.
    assert (Hnone : byte_array s2 !! Z.to_nat (byte_count s2) = None)
      by (apply lookup_ge_None; lia).
    assert (Hact : action_of (state s2) hwL s2 = None).
    { rewrite Hst2. unfold direction. destruct (c_true _); cbn [action_of].
      - unfold I2C_M_RX, bind, emit, get, store.
        destruct (byte_count s2 <? 0); [reflexivity|].
        rewrite Hnone. reflexivity.
      - unfold I2C_M_TX, bind, get, load.
        destruct (byte_count s2 <? 0); [reflexivity|].
        rewrite Hnone. reflexivity. }
    rewrite Hact. reflexivity.
Qed.

(** X4 on the zero-initialised machine started without any buffer, and on a
    buffer of one byte declared with size 2. *)
Lemma short_buffer_overrun_witness :
  run (Call_set_buffer [] 0 :: Call_start 0x50 0 quiet
       :: map Irq ([] ++ [quiet])) i2c_fsm0 = None /\
  run (Call_set_buffer [7] 2 :: Call_start 0x50 1 quiet
       :: map Irq ([quiet] ++ [quiet])) i2c_fsm0 = None.
Proof.
  split.
  - apply (short_buffer_overrun [] 0 0x50 0 quiet [] quiet i2c_fsm0);
      solve [reflexivity | cbn; lia | left; reflexivity | repeat constructor].
  - apply (short_buffer_overrun [7] 2 0x50 1 quiet [quiet] quiet i2c_fsm0);
      solve [reflexivity | cbn; lia | repeat constructor].
Defined.

(** * The handler outside and across transactions *)

Lemma set_state_same (s : i2c_data) : set_state (state s) s = s.
Proof. destruct s; reflexivity. Qed.

(** X5. Interrupts on an idle machine: the context is left exactly as it
    was; an event without error flag makes the three status reads and
    nothing else, an event with an error flag also issues the stop command,
    although no transaction is running. *)
Theorem idle_interrupts `{TWI_defs} (evs : list twi_in) (s : i2c_data) :
  state s = I2C_IDLE ->
  run (map Irq evs) s = Some (tt, s, idle_log evs) /\
  dispatched (map Irq evs) s = map (fun hw => effective_state hw s) evs.
Proof.
  intros Hi. induction evs as [|hw evs [IHr IHd]]; [split; reflexivity|].
  cbn [map]. rewrite run_cons, dispatched_cons. cbn [exec dispatched_by].
  assert (Hisr : i2c_state_isr hw s =
            Some (tt, s, triage_reads ++
                         (if no_error hw then []
                          else [RegOr MCTRLB TWI_MCMD_STOP_gc]))).
  { destruct (no_error hw) eqn:Hq.
    - rewrite isr_quiet by assumption. rewrite Hi. cbn [action_of].
      rewrite idle_run, <- Hi, set_state_same. reflexivity.
    - rewrite isr_error by assumption. rewrite <- Hi, set_state_same.
      reflexivity. }
  rewrite Hisr, IHr, IHd. split; reflexivity.
Qed.

(** X5 on two events, the second with a NACK showing. *)
Lemma idle_interrupts_witness :
  run (map Irq [quiet; nack_event]) after_abort =
    Some (tt, after_abort,
          triage_reads ++ triage_reads ++ [RegOr MCTRLB 3]).
Proof.
  exact (proj1 (idle_interrupts [quiet; nack_event] after_abort eq_refl)).
Defined.

(** X6. Starts and events while an error flag shows: on an idle machine, as
    long as every call of [i2c_start] and every interrupt finds an error flag
    set, no transaction begins: each call issues the stop command after its
    three status reads and nothing else (MADDR is never written), the machine
    stays idle, and buffer, size and count are untouched. *)
Theorem start_refused_while_flagged `{TWI_defs} (cs : list call)
    (s : i2c_data) :
  state s = I2C_IDLE ->
  Forall flagged cs ->
  exists s',
    run cs s = Some (tt, s', flat_map (fun _ => stop_log) cs)
    /\ state s' = I2C_IDLE
    /\ byte_array s' = byte_array s
    /\ size_byte_array s' = size_byte_array s
    /\ byte_count s' = byte_count s
    /\ Forall (fun o => forall v, o <> RegWrite MADDR v)
              (flat_map (fun _ => stop_log) cs).
Proof.
  intros Hi Hcs. revert s Hi.
  induction Hcs as [|c cs Hc _ IH]; intros s Hi.
  - exists s. repeat split; (assumption || constructor).
  - rewrite run_cons.
    assert (Hex : exists s1, exec c s = Some (tt, s1, stop_log)
              /\ state s1 = I2C_IDLE /\ byte_array s1 = byte_array s
              /\ size_byte_array s1 = size_byte_array s
              /\ byte_count s1 = byte_count s).
    { destruct c as [| |addr rw hw|hw]; cbn in Hc; try contradiction;
        cbn [exec].
      - rewrite start_call_run. apply state_eqb_eq in Hi. rewrite Hi.
        rewrite isr_error by assumption.
        eexists. split; [reflexivity|]. repeat split.
      - rewrite isr_error by assumption.
        eexists. split; [reflexivity|]. repeat split. }
    destruct Hex as (s1 & -> & Hi1 & Hb1 & Hz1 & Hc1).
    destruct (IH s1 Hi1) as (s2 & -> & Hi2 & Hb2 & Hz2 & Hc2 & Hlog).
    exists s2. split; [reflexivity|].
    repeat split; try congruence.
    cbn [flat_map]. apply Forall_app. split; [|assumption].
    unfold stop_log, triage_reads. repeat constructor; discriminate.
Qed.

(** X6 on two starts in a row while a bus error shows. *)
Lemma start_refused_while_flagged_witness :
  exists s',
    run [Call_start 0x50 0 nack_bus_event; Call_start 0x50 0 nack_bus_event]
        after_abort = Some (tt, s', stop_log ++ stop_log ++ [])
    /\ state s' = I2C_IDLE
    /\ byte_array s' = [10; 20; 30]
    /\ size_byte_array s' = 3
    /\ byte_count s' = 1
    /\ Forall (fun o => forall v, o <> RegWrite MADDR v)
              (stop_log ++ stop_log ++ []).
Proof.
  apply (start_refused_while_flagged
           [Call_start 0x50 0 nack_bus_event; Call_start 0x50 0 nack_bus_event]
           after_abort).
  - reflexivity.
  - repeat constructor.
Defined.

(** X7. States left in the context: from a context whose state is one of
    [I2C_IDLE], [I2C_TX_BYTE], [I2C_RX_BYTE] and [I2C_STOP] (the
    zero-initialised one is), every sequence of calls and events that runs
    ends in one of these four: [I2C_START] and the three error states are
    never left in [i2c_fsm.state], so an aborted transaction cannot be told
    from a finished one by the state. *)
Theorem stored_state_resting `{TWI_defs} (cs : list call) (s s' : i2c_data)
    (o : list twi_op) :
  resting (state s) = true ->
  run cs s = Some (tt, s', o) ->
  (state s' = I2C_IDLE \/ state s' = I2C_TX_BYTE \/
   state s' = I2C_RX_BYTE \/ state s' = I2C_STOP) /\
  state s' <> I2C_START /\ state s' <> I2C_NACK /\
  state s' <> I2C_ARB_ERR /\ state s' <> I2C_BUS_ERR.
Proof.
  intros Hr Hrun. apply (run_resting cs s s' o Hr) in Hrun.
  destruct (state s'); try discriminate; repeat split;
    (tauto || discriminate).
Qed.

(** X7 on a write aborted by a bus error at its first byte event. *)
Lemma stored_state_resting_witness :
  (state after_abort = I2C_IDLE \/ state after_abort = I2C_TX_BYTE \/
   state after_abort = I2C_RX_BYTE \/ state after_abort = I2C_STOP) /\
  state after_abort <> I2C_START /\ state after_abort <> I2C_NACK /\
  state after_abort <> I2C_ARB_ERR /\ state after_abort <> I2C_BUS_ERR.
Proof.
  apply (stored_state_resting
           [Call_set_buffer [10; 20; 30] 3; Call_start 0x50 0 quiet;
            Irq quiet; Irq nack_bus_event]
           i2c_fsm0 after_abort
           (triage_reads ++ [RegWrite MADDR 0xA0] ++
            triage_reads ++ [RegWrite MDATA 10] ++ stop_log));
    reflexivity.
Defined.

(** ** What one interrupt can change *)

Lemma isr_frame `{TWI_defs} (hw : twi_in) (s s' : i2c_data)
    (o : list twi_op) :
  i2c_state_isr hw s = Some (tt, s', o) ->
  slave_addr s' = slave_addr s /\
  size_byte_array s' = size_byte_array s /\
  length (byte_array s') = length (byte_array s) /\
  (effective_state hw s <> I2C_RX_BYTE -> byte_array s' = byte_array s) /\
  (resting (state s') = true) /\
  (state s' = I2C_RX_BYTE ->
   effective_state hw s = I2C_RX_BYTE \/
   effective_state hw s = I2C_START /\
   direction (slave_addr s) = I2C_RX_BYTE).
Proof.
  intros Hrun. pose proof (isr_resting hw s s' o Hrun) as Hrest.
  rewrite isr_run in Hrun.
  destruct (effective_state hw s) eqn:He; cbn [action_of] in Hrun.
  1-4, 7-9: (cbn in Hrun; injection Hrun as <- _; cbn;
             repeat split; try (intros; discriminate); try assumption).
  - unfold direction. destruct (c_true _); [intros _; right; auto | discriminate].
  - unfold I2C_M_TX, bind, get, load in Hrun.
    cbn [byte_array byte_count set_state] in Hrun.
    destruct (byte_count s <? 0); [discriminate|].
    destruct (byte_array s !! Z.to_nat (byte_count s)); [|discriminate].
    cbn in Hrun. injection Hrun as <- _. cbn.
    repeat split; try assumption.
    destruct (_ >=? _); discriminate.
  - unfold I2C_M_RX, bind, get, emit, store in Hrun.
    cbn [byte_array byte_count set_state] in Hrun.
    destruct (byte_count s <? 0); [discriminate|].
    destruct (byte_array s !! Z.to_nat (byte_count s)); [|discriminate].
    cbn in Hrun. injection Hrun as <- _. cbn.
    repeat split; try assumption; try congruence; auto.
    apply length_insert.
Qed.

Lemma isr_not_reading `{TWI_defs} (hw : twi_in) (s s' : i2c_data)
    (o : list twi_op) :
  not_reading s -> i2c_state_isr hw s = Some (tt, s', o) ->
  not_reading s' /\ byte_array s' = byte_array s.
Proof.
  intros [Hn Hs] Hrun.
  destruct (isr_frame hw s s' o Hrun) as (_ & _ & _ & Hbuf & Hrest & Hrx).
  assert (Heff : effective_state hw s <> I2C_RX_BYTE).
  { rewrite effective_state_cases. flag_cases hw; (discriminate || assumption). }
  split; [|apply Hbuf, Heff].
  split.
  - intros Hst. destruct (Hrx Hst) as [E | [E Hd]]; [contradiction|].
    assert (Hst0 : state s = I2C_START).
    { rewrite effective_state_cases in E.
      flag_cases hw; (discriminate || assumption). }
    rewrite (Hs Hst0) in Hd. discriminate.
  - intros Hst. rewrite Hst in Hrest. discriminate.
Qed.

(** X8. What interrupts leave alone: whatever the state and whatever the
    events show, interrupts never change [slave_addr], [size_byte_array] or
    the length of the buffer; and unless a read is under way or about to
    begin, they do not change the contents of the buffer either. *)
Theorem interrupts_frame `{TWI_defs} (evs : list twi_in) (s s' : i2c_data)
    (o : list twi_op) :
  run (map Irq evs) s = Some (tt, s', o) ->
  slave_addr s' = slave_addr s /\
  size_byte_array s' = size_byte_array s /\
  length (byte_array s') = length (byte_array s) /\
  (not_reading s -> byte_array s' = byte_array s).
Proof.
  revert s o. induction evs as [|hw evs IH]; intros s o.
  - cbn. intros [= <- _]. repeat split.
  - cbn [map]. rewrite run_cons. cbn [exec].
    destruct (i2c_state_isr hw s) as [[[[] s1] o1]|] eqn:H1; [|discriminate].
    destruct (run (map Irq evs) s1) as [[[[] s2] o2]|] eqn:H2; [|discriminate].
    intros [= <- _].
    destruct (IH s1 o2 H2) as (Ha & Hz & Hl & Hb).
    destruct (isr_frame hw s s1 o1 H1) as (Ha1 & Hz1 & Hl1 & _).
    repeat split; try congruence.
    intros Hn. destruct (isr_not_reading hw s s1 o1 Hn H1) as [Hn1 Hb1].
    rewrite (Hb Hn1). exact Hb1.
Qed.

(** X8 on the second half of a write of three bytes. *)
Lemma interrupts_frame_witness :
  slave_addr after_abort = slave_addr tx_mid /\
  size_byte_array after_abort = size_byte_array tx_mid /\
  length (byte_array after_abort) = length (byte_array tx_mid) /\
  (not_reading tx_mid -> byte_array after_abort = byte_array tx_mid).
Proof.
  apply (interrupts_frame [nack_event] tx_mid after_abort
           (triage_reads ++ [RegOr MCTRLB 3])).
  reflexivity.
Defined.

(** X9. Register accesses of one interrupt: unless the stored state is
    [I2C_RESET], the handler makes its three reads of MSTATUS and then at
    most one more access: the write of [slave_addr] to MADDR, the write of
    the byte at [byte_count] to MDATA, a read of MDATA, or the stop command
    in MCTRLB.  It touches no other register. *)
Theorem isr_register_accesses `{TWI_defs} (hw : twi_in) (s s' : i2c_data)
    (o : list twi_op) :
  state s <> I2C_RESET ->
  i2c_state_isr hw s = Some (tt, s', o) ->
  exists x, o = triage_reads ++ x /\
    (x = [] \/
     x = [RegWrite MADDR (slave_addr s)] \/
     (exists b, byte_array s !! Z.to_nat (byte_count s) = Some b /\
                x = [RegWrite MDATA b]) \/
     x = [RegRead MDATA] \/
     x = [RegOr MCTRLB TWI_MCMD_STOP_gc]).
Proof.
  intros Hn Hrun. rewrite isr_run in Hrun.
  destruct (effective_state hw s) eqn:He; cbn [action_of] in Hrun.
  1-3, 7-9: (cbn in Hrun; injection Hrun as _ <-; eexists; split;
             [reflexivity | auto 6]).
  - apply effective_reset in He. contradiction.
  - unfold I2C_M_TX, bind, get, load in Hrun.
    cbn [byte_array byte_count set_state] in Hrun.
    destruct (byte_count s <? 0); [discriminate|].
    destruct (byte_array s !! Z.to_nat (byte_count s)) as [b|] eqn:Hb;
      [|discriminate].
    cbn in Hrun. injection Hrun as _ <-.
    eexists. split; [reflexivity|]. right. right. left. eauto.
  - unfold I2C_M_RX, bind, get, emit, store in Hrun.
    cbn [byte_array byte_count set_state] in Hrun.
    destruct (byte_count s <? 0); [discriminate|].
    destruct (byte_array s !! Z.to_nat (byte_count s)); [|discriminate].
    cbn in Hrun. injection Hrun as _ <-.
    eexists. split; [reflexivity|]. auto 6.
Qed.

(** X9 on a NACK in the middle of a write. *)
Lemma isr_register_accesses_witness :
  exists x, triage_reads ++ [RegOr MCTRLB 3] = triage_reads ++ x /\
    (x = [] \/
     x = [RegWrite MADDR (slave_addr tx_mid)] \/
     (exists b, byte_array tx_mid !! Z.to_nat (byte_count tx_mid) = Some b /\
                x = [RegWrite MDATA b]) \/
     x = [RegRead MDATA] \/
     x = [RegOr MCTRLB 3]).
Proof.
  assert (Hn : state tx_mid <> I2C_RESET) by discriminate.
  exact (isr_register_accesses nack_event tx_mid after_abort
           (triage_reads ++ [RegOr MCTRLB 3]) Hn eq_refl).
Defined.

(** * The address byte *)

Lemma uint8_bits (z : Z) (n : Z) :
  0 <= n ->
  Z.testbit (uint8 z) n = if n <? 8 then Z.testbit z n else false.
Proof.
  intros Hn. unfold uint8. change 256 with (2 ^ 8).
  destruct (Z.ltb_spec n 8).
  - apply Z.mod_pow2_bits_low. lia.
  - apply Z.mod_pow2_bits_high. lia.
Qed.

Lemma start_stores_address `{TWI_defs} (addr rw : Z) (hw : twi_in)
    (s : i2c_data) :
  state s = I2C_IDLE ->
  exists next o,
    i2c_start addr rw hw s =
      Some (tt,
            {| slave_addr := uint8 (Z.lor (Z.shiftl addr 1) rw);
               byte_array := byte_array s;
               size_byte_array := size_byte_array s;
               byte_count := if no_error hw then 0 else byte_count s;
               state := next |}, o)
    /\ next = (if no_error hw
               then direction (uint8 (Z.lor (Z.shiftl addr 1) rw))
               else I2C_IDLE).
Proof.
  intros Hi. rewrite start_call_run. apply state_eqb_eq in Hi. rewrite Hi.
  destruct (no_error hw) eqn:Hq.
  - rewrite isr_quiet by assumption. eexists _, _. split; reflexivity.
  - rewrite isr_error by assumption. eexists _, _. split; reflexivity.
Qed.

(** X10. The address byte can be decoded: after [i2c_start] on an idle
    machine with a 7-bit address and a direction of 0 or 1, [slave_addr]
    shifted right by one is the address and its bit 0 is the direction; and
    when the read mask is bit 0 and no error flag shows, direction 1 selects
    [I2C_RX_BYTE] and direction 0 selects [I2C_TX_BYTE]. *)
Theorem start_address_round_trip `{TWI_defs} (addr rw : Z) (hw : twi_in)
    (s : i2c_data) :
  state s = I2C_IDLE ->
  0 <= addr < 128 -> 0 <= rw < 2 ->
  exists s' o,
    i2c_start addr rw hw s = Some (tt, s', o)
    /\ Z.shiftr (slave_addr s') 1 = addr
    /\ Z.land (slave_addr s') 1 = rw
    /\ (I2C_READ_bm = 1 -> no_error hw = true ->
        state s' = if rw =? 1 then I2C_RX_BYTE else I2C_TX_BYTE).
Proof.
  intros Hi Ha Hr.
  destruct (start_stores_address addr rw hw s Hi) as (next & o & -> & Hnext).
  eexists _, _. split; [reflexivity|]. cbn [slave_addr state].
  assert (Hv : uint8 (Z.lor (Z.shiftl addr 1) rw) = 2 * addr + rw).
  { assert (Hl : Z.lor (Z.shiftl addr 1) rw = 2 * addr + rw).
    { rewrite Z.shiftl_mul_pow2 by lia. change (2 ^ 1) with 2.
      assert (rw = 0 \/ rw = 1) as [-> | ->] by lia.
      - rewrite Z.lor_0_r. lia.
      - rewrite <- Z.add_nocarry_lor; [lia|].
        apply Z.bits_inj'. intros m Hm. rewrite Z.land_spec, Z.bits_0.
        destruct (Z.eq_dec m 0) as [-> | Hm0].
        + rewrite Z.mul_comm, Z.testbit_even_0. reflexivity.
        + replace 1 with (2 ^ 0) by reflexivity.
          rewrite (Z.pow2_bits_false 0 m) by lia. apply andb_false_r. }
    rewrite Hl. apply uint8_small. lia. }
  rewrite Hv.
  assert (Hland : Z.land (2 * addr + rw) 1 = rw).
  { change 1 with (Z.ones 1). rewrite Z.land_ones by lia.
    change (2 ^ 1) with 2. rewrite Z.add_comm, Z.mul_comm, Z.mod_add by lia.
    apply Z.mod_small. lia. }
  split; [|split; [exact Hland|]].
  - rewrite Z.shiftr_div_pow2 by lia. change (2 ^ 1) with 2.
    rewrite Z.add_comm, Z.mul_comm, Z.div_add by lia.
    rewrite Z.div_small by lia. lia.
  - intros Hm Hq. rewrite Hnext, Hq, Hv. unfold direction. rewrite Hm, Hland.
    assert (rw = 0 \/ rw = 1) as [-> | ->] by lia; reflexivity.
Qed.

(** X10 for a read from address 0x21. *)
Lemma start_address_round_trip_witness :
  exists s' o,
    i2c_start 0x21 1 quiet i2c_fsm0 = Some (tt, s', o)
    /\ Z.shiftr (slave_addr s') 1 = 0x21
    /\ Z.land (slave_addr s') 1 = 1
    /\ (I2C_READ_bm = 1 -> no_error quiet = true ->
        state s' = if 1 =? 1 then I2C_RX_BYTE else I2C_TX_BYTE).
Proof.
  apply (start_address_round_trip 0x21 1 quiet i2c_fsm0);
    solve [reflexivity | lia].
Defined.

(** X11. The address argument is cut to seven bits: the shift pushes bit 7
    of [addr] out of the [uint8_t] field, so [i2c_start] with [addr + 128]
    does exactly what it does with [addr]. *)
Theorem start_drops_address_bit_7 `{TWI_defs} (addr rw : Z) (hw : twi_in)
    (s : i2c_data) :
  i2c_start (addr + 128) rw hw s = i2c_start addr rw hw s.
Proof.
  rewrite !start_call_run.
  assert (Hv : uint8 (Z.lor (Z.shiftl (addr + 128) 1) rw)
               = uint8 (Z.lor (Z.shiftl addr 1) rw)).
  { apply Z.bits_inj'. intros n Hn. rewrite !uint8_bits by assumption.
    destruct (Z.ltb_spec n 8); [|reflexivity].
    rewrite !Z.lor_spec. f_equal.
    rewrite !Z.shiftl_spec by assumption.
    destruct (Z.ltb_spec (n - 1) 0) as [Hneg|Hpos].
    - rewrite !Z.testbit_neg_r by assumption. reflexivity.
    - rewrite <- (Z.mod_pow2_bits_low (addr + 128) 7 (n - 1)) by lia.
      rewrite <- (Z.mod_pow2_bits_low addr 7 (n - 1)) by lia.
      change (2 ^ 7) with 128.
      replace (addr + 128) with (addr + 1 * 128) by lia.
      rewrite Z.mod_add by lia. reflexivity. }
  rewrite Hv. reflexivity.
Qed.

(** * Calls in the middle of a transaction *)

(** X12. [i2c_set_buffer] in the middle of a write: the transfer goes on in
    the same bus transaction from place 0 of the new buffer; the bytes of the
    old buffer that were not sent yet never are, and the whole new buffer (its
    declared size) is sent before the stop command. *)
Theorem set_buffer_redirects_write `{TWI_defs} (buff : list Z) (size : Z)
    (evs : list twi_in) (hwS : twi_in) (s : i2c_data) :
  state s = I2C_TX_BYTE ->
  1 <= size <= 255 -> size <= Z.of_nat (length buff) ->
  Z.of_nat (length evs) = size ->
  Forall (fun hw => no_error hw = true) evs ->
  no_error hwS = true ->
  run (Call_set_buffer buff size :: map Irq (evs ++ [hwS])) s =
    Some (tt,
          {| slave_addr := slave_addr s; byte_array := buff;
             size_byte_array := size; byte_count := size;
             state := I2C_IDLE |},
          tx_log (take (length evs) buff) ++ stop_log).
Proof.
  intros Hst Hs Hl Hlen Hq HqS.
  rewrite run_cons. cbn [exec]. rewrite set_buffer_run, Hst.
  set (s1 := {| slave_addr := slave_addr s; byte_array := buff;
                size_byte_array := size; byte_count := 0;
                state := I2C_TX_BYTE |}).
  destruct (tx_quiet_run evs s1) as [Ht _]; try assumption;
    try (subst s1; cbn; lia); [reflexivity|].
  cbn [byte_count size_byte_array byte_array s1 Z.to_nat drop] in Ht.
  rewrite Z.add_0_l, Hlen in Ht.
  destruct (Z.geb_spec size size); [|lia].
  rewrite map_app, run_app, Ht. cbn [map run exec]. unfold bind at 1.
  rewrite isr_ends by (right; reflexivity).
  cbn [ret]. rewrite app_nil_r. reflexivity.
Qed.

(** X12 in the middle of the write of [10; 20; 30]: the new buffer [1; 2]
    goes out, 20 and 30 do not. *)
Lemma set_buffer_redirects_write_witness :
  run (Call_set_buffer [1; 2] 2 :: map Irq ([quiet; quiet] ++ [quiet])) tx_mid
    = Some (tt,
            {| slave_addr := 0xA0; byte_array := [1; 2];
               size_byte_array := 2; byte_count := 2; state := I2C_IDLE |},
            tx_log [1; 2] ++ stop_log).
Proof.
  apply (set_buffer_redirects_write [1; 2] 2 [quiet; quiet] quiet tx_mid);
    solve [reflexivity | cbn; lia | repeat constructor].
Defined.

(** X13. A start requested while a transaction runs is lost: if the machine
    is not idle after the calls [cs1], a call of [i2c_start] at that point
    changes nothing in what follows; the request is neither queued nor
    reported. *)
Theorem start_while_busy_is_lost `{TWI_defs} (cs1 cs2 : list call)
    (addr rw : Z) (hw : twi_in) (s s1 : i2c_data) (o1 : list twi_op) :
  run cs1 s = Some (tt, s1, o1) ->
  state s1 <> I2C_IDLE ->
  run (cs1 ++ Call_start addr rw hw :: cs2) s = run (cs1 ++ cs2) s /\
  dispatched (cs1 ++ Call_start addr rw hw :: cs2) s =
  dispatched (cs1 ++ cs2) s.
Proof.
  intros Hrun Hbusy. apply state_eqb_neq in Hbusy.
  rewrite !run_app, !dispatched_app, Hrun.
  rewrite run_cons, dispatched_cons. cbn [exec dispatched_by].
  rewrite start_call_run, Hbusy. cbn [app].
  split; [|reflexivity].
  destruct (run cs2 s1) as [[[[] s2] o2]|]; reflexivity.
Qed.

(** X13 in the middle of a write of three bytes. *)
Lemma start_while_busy_is_lost_witness :
  run ([Call_set_buffer [10; 20; 30] 3; Call_start 0x50 0 quiet; Irq quiet]
       ++ Call_start 0x21 1 quiet :: [Irq quiet; Irq quiet; Irq quiet])
      i2c_fsm0 =
  run ([Call_set_buffer [10; 20; 30] 3; Call_start 0x50 0 quiet; Irq quiet]
       ++ [Irq quiet; Irq quiet; Irq quiet]) i2c_fsm0.
Proof.
  refine (proj1 (start_while_busy_is_lost
            [Call_set_buffer [10; 20; 30] 3; Call_start 0x50 0 quiet;
             Irq quiet]
            [Irq quiet; Irq quiet; Irq quiet] 0x21 1 quiet
            i2c_fsm0 tx_mid
            (triage_reads ++ [RegWrite MADDR 0xA0] ++
             triage_reads ++ [RegWrite MDATA 10]) eq_refl _)).
  discriminate.
Defined.

(** X14. A write declared with size 0 still sends one byte: the function of
    [I2C_START] always hands over to the byte state and the byte function
    moves a byte before it compares, so the first byte of the buffer goes
    out, the count ends at 1, above the size, and the next event issues the
    stop command. *)
Theorem zero_size_write_sends_one_byte `{TWI_defs} (b : Z) (rest : list Z)
    (addr rw : Z) (hw0 hw1 hw2 : twi_in) (s : i2c_data) :
  state s = I2C_IDLE ->
  direction (uint8 (Z.lor (Z.shiftl addr 1) rw)) = I2C_TX_BYTE ->
  no_error hw0 = true -> no_error hw1 = true ->
  run [Call_set_buffer (b :: rest) 0; Call_start addr rw hw0;
       Irq hw1; Irq hw2] s =
    Some (tt,
          {| slave_addr := uint8 (Z.lor (Z.shiftl addr 1) rw);
             byte_array := b :: rest; size_byte_array := 0;
             byte_count := 1; state := I2C_IDLE |},
          (triage_reads ++
           [RegWrite MADDR (uint8 (Z.lor (Z.shiftl addr 1) rw))]) ++
          (triage_reads ++ [RegWrite MDATA b]) ++ stop_log).
Proof.
  intros Hi Hdir Hq0 Hq1.
  destruct (begin_quiet (b :: rest) 0 addr rw hw0 s Hi Hq0) as [Hb _].
  rewrite Hdir in Hb.
  change [Call_set_buffer (b :: rest) 0; Call_start addr rw hw0;
          Irq hw1; Irq hw2]
    with ([Call_set_buffer (b :: rest) 0; Call_start addr rw hw0]
          ++ [Irq hw1; Irq hw2]).
  rewrite run_app, Hb.
  rewrite run_cons. cbn [exec].
  rewrite (isr_quiet_tx hw1 _ b) by (reflexivity || assumption || (cbn; lia)).
  cbn [byte_count size_byte_array set_state set_byte_count].
  rewrite run_cons. cbn [exec].
  rewrite isr_ends by (right; reflexivity).
  reflexivity.
Qed.

(** X14 for the one-byte buffer [7]. *)
Lemma zero_size_write_sends_one_byte_witness :
  data_writes (final_log
    (run [Call_set_buffer [7] 0; Call_start 0x50 0 quiet;
          Irq quiet; Irq quiet] i2c_fsm0)) = [7].
Proof.
  rewrite (zero_size_write_sends_one_byte 7 [] 0x50 0 quiet quiet quiet
             i2c_fsm0) by reflexivity.
  reflexivity.
Defined.

(** * Re-entry after an error abort *)

(** C8. Re-entry after an abort by arbitration loss or bus error fails on
    the flag the peripheral still shows.  The aborting interrupt only issues
    the stop command, which the source does not say clears ARBLOST or BUSERR,
    so the status is left as it was; [i2c_start] then runs the triage on that
    status before anything is written to MADDR, dispatches the error state
    instead of [I2C_START] and issues the stop command again: the new
    transaction does not begin, and the accesses made leave the flag set for
    the next attempt too.  On the zero-initialised machine, with no flag
    showing, the same calls write the address and enter the byte state. *)
Theorem stale_flag_refuses_start `{TWI_defs} (hwE : twi_in) (buff : list Z)
    (size addr rw : Z) (s : i2c_data) :
  arbitrationLost hwE = true \/ busError hwE = true ->
  i2c_state_isr hwE s = Some (tt, set_state I2C_IDLE s, stop_log) /\
  flags_left (MSTATUS_val hwE) stop_log = MSTATUS_val hwE /\
  run [Call_set_buffer buff size;
       Call_start addr rw
         {| MSTATUS_val := flags_left (MSTATUS_val hwE) stop_log;
            MDATA_val := MDATA_val hwE |}] (set_state I2C_IDLE s) =
    Some (tt,
          {| slave_addr := uint8 (Z.lor (Z.shiftl addr 1) rw);
             byte_array := buff; size_byte_array := size; byte_count := 0;
             state := I2C_IDLE |},
          stop_log) /\
  dispatched [Call_set_buffer buff size;
              Call_start addr rw
                {| MSTATUS_val := flags_left (MSTATUS_val hwE) stop_log;
                   MDATA_val := MDATA_val hwE |}] (set_state I2C_IDLE s) =
    [effective_state hwE s] /\
  effective_state hwE s <> I2C_START /\
  (forall hw0 : twi_in, no_error hw0 = true ->
   run [Call_set_buffer buff size; Call_start addr rw hw0] i2c_fsm0 =
     Some (tt,
           {| slave_addr := uint8 (Z.lor (Z.shiftl addr 1) rw);
              byte_array := buff; size_byte_array := size; byte_count := 0;
              state := direction (uint8 (Z.lor (Z.shiftl addr 1) rw)) |},
           triage_reads ++
           [RegWrite MADDR (uint8 (Z.lor (Z.shiftl addr 1) rw))]) /\
   dispatched [Call_set_buffer buff size; Call_start addr rw hw0] i2c_fsm0 =
     [I2C_START]) /\
  stop_log <>
    triage_reads ++ [RegWrite MADDR (uint8 (Z.lor (Z.shiftl addr 1) rw))] /\
  direction (uint8 (Z.lor (Z.shiftl addr 1) rw)) <> I2C_IDLE.
Proof.
  intros Hflag.
  assert (Hq : no_error hwE = false).
  { unfold no_error. destruct Hflag as [-> | ->];
      destruct (peerNack hwE); try destruct (arbitrationLost hwE);
      reflexivity. }
  assert (Hkept : flags_left (MSTATUS_val hwE) stop_log = MSTATUS_val hwE)
    by reflexivity.
  rewrite Hkept.
  replace {| MSTATUS_val := MSTATUS_val hwE; MDATA_val := MDATA_val hwE |}
    with hwE by (destruct hwE; reflexivity).
  assert (Heff : forall s1 s2, effective_state hwE s1 = effective_state hwE s2).
  { intros s1 s2. rewrite !effective_state_cases.
    unfold no_error in Hq. flag_cases hwE; (reflexivity || discriminate). }
  split; [apply isr_error, Hq|]. split; [reflexivity|].
  split; [|split; [|split; [|split; [|split]]]].
  - rewrite (begin_from_idle buff size addr rw hwE (set_state I2C_IDLE s))
      by reflexivity.
    rewrite isr_error by assumption. reflexivity.
  - rewrite dispatched_cons. cbn [dispatched_by exec app].
    rewrite set_buffer_run, dispatched_cons.
    cbn [dispatched_by exec state set_state state_eqb state_index Nat.eqb].
    rewrite (Heff _ s).
    destruct (i2c_start _ _ _ _) as [[[[] ?] ?]|]; reflexivity.
  - apply (error_effective hwE s Hq).
  - intros hw0 Hq0. apply (begin_quiet buff size addr rw hw0 i2c_fsm0);
      [reflexivity | assumption].
  - unfold stop_log, triage_reads. discriminate.
  - unfold direction. destruct (c_true _); discriminate.
Qed.

(** C8 on a write of three bytes aborted by a bus error at its second byte
    event, followed by a write of two bytes to address 0x21: the new start
    issues the stop command and stays idle, where the fresh machine writes
    0x42 to MADDR. *)
Lemma stale_flag_refuses_start_witness :
  i2c_state_isr bus_error_event tx_mid = Some (tt, after_abort, stop_log) /\
  flags_left (MSTATUS_val bus_error_event) stop_log = 0x04 /\
  run [Call_set_buffer [1; 2] 2; Call_start 0x21 0 bus_error_event]
      after_abort =
    Some (tt,
          {| slave_addr := 0x42; byte_array := [1; 2]; size_byte_array := 2;
             byte_count := 0; state := I2C_IDLE |},
          triage_reads ++ [RegOr MCTRLB 3]) /\
  run [Call_set_buffer [1; 2] 2; Call_start 0x21 0 quiet] i2c_fsm0 =
    Some (tt,
          {| slave_addr := 0x42; byte_array := [1; 2]; size_byte_array := 2;
             byte_count := 0; state := I2C_TX_BYTE |},
          triage_reads ++ [RegWrite MADDR 0x42]).
Proof.
  destruct (stale_flag_refuses_start bus_error_event [1; 2] 2 0x21 0 tx_mid)
    as (Habort & Hkept & Hrun & _ & _ & Hfresh & _).
  { right. reflexivity. }
  split; [exact Habort|]. split; [exact Hkept|]. split; [exact Hrun|].
  exact (proj1 (Hfresh quiet eq_refl)).
Defined.
